(** * MarathonSpawner: a shallow embedding of [marathonspawner.py]

    The spawner drives three kinds of outside parties: the Marathon
    client ([create_app], [get_app], [delete_app]), the name resolver
    ([socket.gethostbyname]) and the clock ([time.sleep]).  They are
    kept abstract behind the [Marathon] interface; the spawner's own
    methods are written in a small state-and-exception monad over a
    machine that holds the outside world, the hub's shared server
    record and the list of outside calls made so far. *)

From Stdlib Require Import ZArith QArith Qpower Qfield Lia List.
From Stdlib Require Import Floats.SpecFloat.
From stdpp Require Import base option list strings gmap.

Local Open Scope Z_scope.

(** ** Python values *)

(** An instance of a Python [Exception] subclass, identified by the name
    of its class.  Asynchronous [BaseException]s (keyboard interrupt,
    interpreter exit) are not orchestrator or resolver answers and are
    not modelled, so [except Exception] and a bare [except] catch the
    same things here. *)
Inductive exn : Type := Exception (cls : string).

Definition AssertionError : exn := Exception "AssertionError".
Definition IndexError : exn := Exception "IndexError".
Definition ValueError : exn := Exception "ValueError".
Definition OverflowError : exn := Exception "OverflowError".

(** The result of evaluating a Python expression or call. *)
Inductive result (A : Type) : Type :=
| Return (a : A)
| Raise (e : exn).
Arguments Return {A} a.
Arguments Raise {A} e.

(** A Python [float]: IEEE 754 binary64, as specified by [SpecFloat]. *)
Abbreviation float := spec_float.
Abbreviation prec := 53.
Abbreviation emax := 1024.

(** The literal [1024.0], that is [2^52 * 2^-42]. *)
Definition f1024 : float := S754_finite false 4503599627370496 (-42).

(** [float(n)] for a Python [int]: rounding to nearest even, and
    [OverflowError] when the integer is beyond the range of a double. *)
Definition float_of_int (n : Z) : result float :=
  match binary_normalize prec emax n 0 false with
  | S754_infinity _ => Raise OverflowError
  | f => Return f
  end.

(** [n / d] for an [int] [n] and a nonzero [float] [d]: the integer is
    converted first, then the two doubles are divided. *)
Definition int_truediv (n : Z) (d : float) : result float :=
  match float_of_int n with
  | Return x => Return (SFdiv prec emax x d)
  | Raise e => Raise e
  end.

Definition float_truediv (x d : float) : float := SFdiv prec emax x d.

(** The rational a finite double stands for. *)
Definition float_value (f : float) : option Q :=
  match f with
  | S754_zero _ => Some 0%Q
  | S754_finite s m e =>
      Some (inject_Z (cond_Zopp s (Zpos m)) * Qpower 2 e)%Q
  | _ => None
  end.

(** [s.split(sep, 1)] unpacked into two names: the text before and after
    the first occurrence of [sep], [None] when [sep] does not occur (the
    unpacking then raises [ValueError]). *)
Fixpoint split_once (sep s : string) : option (string * string) :=
  if String.prefix sep s
  then Some (EmptyString, String.substring (String.length sep)
                            (String.length s - String.length sep)%nat s)
  else match s with
       | EmptyString => None
       | String c s' =>
           match split_once sep s' with
           | Some (a, b) => Some (String c a, b)
           | None => None
           end
       end.

(** ** The objects of the [marathon] package *)

Record MarathonHealthCheck : Type := {
  protocol : string;
  port_index : Z;
  grace_period_seconds : Z;
  interval_seconds : Z;
  timeout_seconds : Z;
  max_consecutive_failures : Z }.

Record MarathonContainerPortMapping : Type := {
  container_port : Z;
  host_port : Z;
  mapping_protocol : string }.

(** A volume: every attribute but [mode] may be left out ([None]). *)
Record MarathonContainerVolume : Type := {
  container_path : option string;
  host_path : option string;
  mode : string;
  persistent : option string;
  external : option string }.

Record MarathonDockerContainer : Type := {
  image : string;
  network : string;
  port_mappings : list MarathonContainerPortMapping }.

Record MarathonContainer : Type := {
  docker : MarathonDockerContainer;
  container_type : string;
  container_volumes : list MarathonContainerVolume }.

(** A placement constraint: field, operator and optional value. *)
Record MarathonConstraint : Type := {
  field : string;
  operator : string;
  value : option string }.

(** The keyword arguments [start] hands to [MarathonApp(...)].  A field
    of type [option] holds [None] when Python passes [None]. *)
Record MarathonApp : Type := {
  app_id : string;
  app_env : gmap string string;
  cpus : option float;
  mem : float;
  container : MarathonContainer;
  constraints : option (list MarathonConstraint);
  health_checks : list MarathonHealthCheck;
  instances : Z }.

(** A running task as Marathon reports it. *)
Record MarathonTask : Type := {
  host : string;
  task_ports : list Z }.

(** The application object [get_app] answers with: the attributes the
    spawner reads.  [tasks_healthy] is [None] when Marathon left the
    field out. *)
Record AppStatus : Type := {
  tasks_healthy : option Z;
  tasks : list MarathonTask }.

(** What [create_app] returns when it does not raise: the created
    application, or the constant [False]. *)
Inductive create_reply : Type :=
| Created (app : AppStatus)
| ReturnedFalse.

(** One call that leaves the process. *)
Inductive call : Type :=
| CreateApp (name : string) (app : MarathonApp)
| GetApp (name : string) (embed_tasks : bool)
| DeleteApp (name : string)
| GetHostByName (hostname : string)
| Sleep (seconds : Z).

(** ** The imported interface

    Everything the module imports from [marathon], [socket] and [time]:
    the client's three operations, name resolution and sleeping act on
    an outside world [W]; the two [from_json] constructors are pure and
    may raise; [MarathonConstraint.from_json] may also return [None]. *)
Class Marathon (W : Type) : Type := {
  create_app : string -> MarathonApp -> W -> result create_reply * W;
  get_app : string -> bool -> W -> result AppStatus * W;
  delete_app : string -> W -> result unit * W;
  gethostbyname : string -> W -> result string * W;
  sleep : Z -> W -> W;
  volume_from_json : gmap string string -> result MarathonContainerVolume;
  constraint_from_json : list string -> result (option MarathonConstraint) }.

(** ** The spawner object *)

(** [self.user.server]: the record the hub shares with the spawner. *)
Record Server : Type := {
  ip : string;
  port : Z;
  cookie_name : string;
  base_url : string }.

(** [server.ip = v] and [server.port = v]. *)
Definition set_ip (v : string) (srv : Server) : Server :=
  {| ip := v; port := port srv;
     cookie_name := cookie_name srv; base_url := base_url srv |}.

Definition set_port (v : Z) (srv : Server) : Server :=
  {| ip := ip srv; port := v;
     cookie_name := cookie_name srv; base_url := base_url srv |}.

(** The configurable traits of the class and the attributes inherited
    from JupyterHub's [Spawner] that the methods read.  [mem_limit] is
    the memory limit in bytes, a Python [int]; [start_timeout] is an
    [int] number of seconds; [inherited_env] is what [super().get_env()]
    returns. *)
Record Spawner : Type := {
  app_image : string;
  app_prefix : string;
  marathon_host : string;
  marathon_constraints : list (list string);
  ports : list Z;
  volumes : list (gmap string string);
  network_mode : string;
  hub_ip_connect : string;
  user_name : string;
  hub_api_url : string;
  hub_server_base_url : string;
  notebook_dir : string;
  mem_limit : Z;
  cpu_limit : option float;
  start_timeout : Z;
  inherited_env : gmap string string }.

(** ** The machine and its monad *)

Section Spawner.
Context {W : Type} `{Marathon W}.

(** The state a method runs in: the outside world, the server record
    [self.user.server] (shared with the hub, so writes to it are seen by
    the caller), and the outside calls made so far, oldest first. *)
Record Machine : Type := {
  world : W;
  server : Server;
  calls : list call }.

Definition M (A : Type) : Type := Machine -> result A * Machine.

Definition ret {A} (a : A) : M A := fun s => (Return a, s).

Definition bind {A B} (m : M A) (k : A -> M B) : M B :=
  fun s =>
    match m s with
    | (Return a, s') => k a s'
    | (Raise e, s') => (Raise e, s')
    end.

(** [try: m except: ...] seen from the handler's side: the body's result
    is handed over, nothing escapes. *)
Definition try {A} (m : M A) : M (result A) :=
  fun s => let '(r, s') := m s in (Return r, s').

(** A pure computation that may raise. *)
Definition lift {A} (r : result A) : M A := fun s => (r, s).

Definition get_server : M Server := fun s => (Return (server s), s).

(** An attribute assignment on the shared server record. *)
Definition modify_server (f : Server -> Server) : M unit :=
  fun s =>
    (Return tt,
     {| world := world s; server := f (server s); calls := calls s |}).

(** An outside call: it is written to the record of calls and answered
    by the world. *)
Definition outside {A} (c : call) (op : W -> result A * W) : M A :=
  fun s =>
    let '(r, w') := op (world s) in
    (r, {| world := w'; server := server s; calls := calls s ++ [c] |}).

End Spawner.

Arguments Machine W : clear implicits.
Arguments M W A : clear implicits.

Notation "'let*' x := m 'in' k" := (bind m (fun x => k))
  (at level 10, x pattern, m at level 100, k at level 200).

(** [xs[i]]: [IndexError] out of range. *)
Definition index {A} (xs : list A) (i : nat) : result A :=
  match xs !! i with
  | Some x => Return x
  | None => Raise IndexError
  end.

(** [assert b]. *)
Definition assert (b : bool) : result unit :=
  if b then Return tt else Raise AssertionError.

(** ** The methods of [MarathonSpawner] *)

Section Methods.
Context {W : Type} `{Marathon W}.
Variable self : Spawner.

(** [container_name]: ['/%s/%s' % (self.app_prefix, self.user.name)]. *)
Definition container_name : string :=
  "/" +:+ app_prefix self +:+ "/" +:+ user_name self.

Definition get_health_checks : list MarathonHealthCheck :=
  [] ++ [ {| protocol := "TCP";
             port_index := 0;
             grace_period_seconds := 300;
             interval_seconds := 60;
             timeout_seconds := 20;
             max_consecutive_failures := 0 |} ].

(** [for x in xs: acc.append(f(x))], stopping at the first raise. *)
Fixpoint append_each {A B} (f : A -> result B) (xs : list A) (acc : list B)
  : result (list B) :=
  match xs with
  | [] => Return acc
  | x :: xs' =>
      match f x with
      | Return y => append_each f xs' (acc ++ [y])
      | Raise e => Raise e
      end
  end.

Definition get_volumes : result (list MarathonContainerVolume) :=
  append_each volume_from_json (volumes self) [].

Definition get_port_mappings : list MarathonContainerPortMapping :=
  fold_left
    (fun port_mappings p =>
       port_mappings ++ [ {| container_port := p;
                             host_port := 0;
                             mapping_protocol := "tcp" |} ])
    (ports self) [].

(** [get_constraints] fills its list and falls off the end of the
    function: Python returns [None]. *)
Definition get_constraints : result (option (list MarathonConstraint)) :=
  match append_each constraint_from_json (marathon_constraints self) [] with
  | Return constraints => Return None
  | Raise e => Raise e
  end.

Definition get_ip_and_port : M W (string * Z) :=
  let* app := outside (GetApp container_name true) (get_app container_name true) in
  let* _ := lift (assert (bool_decide (length (tasks app) = 1%nat))) in
  let* task := lift (index (tasks app) 0) in
  let* ip := outside (GetHostByName (host task)) (gethostbyname (host task)) in
  let* task := lift (index (tasks app) 0) in
  let* port := lift (index (task_ports task) 0) in
  ret (ip, port).

(** [proto, path = s.split('://', 1)], then [ip, rest = path.split(':', 1)]. *)
Definition _public_hub_api_url : result string :=
  match split_once "://" (hub_api_url self) with
  | None => Raise ValueError
  | Some (proto, path) =>
      match split_once ":" path with
      | None => Raise ValueError
      | Some (ip, rest) =>
          Return (proto +:+ "://" +:+ hub_ip_connect self +:+ ":" +:+ rest)
      end
  end.

(** A string is true when it is not empty. *)
Definition truthy (s : string) : bool :=
  match s with EmptyString => false | _ => true end.

Definition get_env : M W (gmap string string) :=
  let env := inherited_env self in
  let* srv := get_server in
  let env := <["JPY_USER" := user_name self]> env in
  let env := <["JPY_COOKIE_NAME" := cookie_name srv]> env in
  let env := <["JPY_BASE_URL" := base_url srv]> env in
  let env := <["JPY_HUB_PREFIX" := hub_server_base_url self]> env in
  let env := if truthy (notebook_dir self)
             then <["NOTEBOOK_DIR" := notebook_dir self]> env
             else env in
  let* hub_api_url := (if truthy (hub_ip_connect self)
                       then lift _public_hub_api_url
                       else ret (hub_api_url self)) in
  ret (<["JPY_HUB_API_URL" := hub_api_url]> env).

(** [poll] answers [None] (running) or the empty string. *)
Definition poll : M W (option string) :=
  let* r := try (outside (GetApp container_name false)
                   (get_app container_name false)) in
  match r with
  | Raise e => ret (Some "")
  | Return app =>
      if bool_decide (tasks_healthy app = Some 1)
      then ret None
      else ret (Some "")
  end.

(** The [for i in range(self.start_timeout)] loop of [start], with the
    number of iterations still to run. *)
Fixpoint start_loop (n : nat) : M W (option (string * Z)) :=
  match n with
  | O => ret None
  | S n' =>
      let* running := poll in
      match running with
      | None =>
          let* (ip, port) := get_ip_and_port in
          let* _ := modify_server (set_ip ip) in
          let* _ := modify_server (set_port port) in
          ret (Some (ip, port))
      | Some _ =>
          let* _ := outside (Sleep 1) (fun w => (Return tt, sleep 1 w)) in
          start_loop n'
      end
  end.

(** [self.mem_limit / 1024.0 / 1024.0]: the memory request in MiB. *)
Definition mem_request : result float :=
  match int_truediv (mem_limit self) f1024 with
  | Return x => Return (float_truediv x f1024)
  | Raise e => Raise e
  end.

(** The [MarathonApp] request [start] assembles, in Python's order of
    evaluation. *)
Definition app_request : M W MarathonApp :=
  let docker_container :=
    {| image := app_image self;
       network := network_mode self;
       port_mappings := get_port_mappings |} in
  let* volumes := lift get_volumes in
  let app_container :=
    {| docker := docker_container;
       container_type := "DOCKER";
       container_volumes := volumes |} in
  let* mem_request := lift mem_request in
  let* env := get_env in
  let* constraints := lift get_constraints in
  ret {| app_id := container_name;
         app_env := env;
         cpus := cpu_limit self;
         mem := mem_request;
         container := app_container;
         constraints := constraints;
         health_checks := get_health_checks;
         instances := 1 |}.

Definition start : M W (option (string * Z)) :=
  let* app_request := app_request in
  let* r := try (outside (CreateApp container_name app_request)
                   (create_app container_name app_request)) in
  match r with
  | Raise e => ret None
  | Return ReturnedFalse => ret None
  | Return (Created app) => start_loop (Z.to_nat (start_timeout self))
  end.

Definition stop (now : bool) : M W unit :=
  let* _ := outside (DeleteApp container_name) (delete_app container_name) in
  ret tt.

(** [get_state]: the state the parent class saves (the argument stands
    for [super().get_state()]) with the workload's name added. *)
Definition get_state (inherited_state : gmap string string)
  : gmap string string :=
  let state := inherited_state in
  <["container_name" := container_name]> state.

(** [load_state] looks for the saved name and does nothing with it. *)
Definition load_state (state : gmap string string) : M W unit :=
  if bool_decide (is_Some (state !! "container_name"))
  then ret tt
  else ret tt.

End Methods.

(** ** A scripted cluster

    A concrete outside world for running the spawner on examples: the
    answer [create_app] will give, the answers successive [get_app]
    calls will give, a table for name resolution and the set of
    workloads that exist. *)

Definition NotFoundError : exn := Exception "NotFoundError".
Definition MarathonError : exn := Exception "MarathonError".
Definition gaierror : exn := Exception "gaierror".
Definition TypeError : exn := Exception "TypeError".

Record Cluster : Type := {
  create_answer : result create_reply;
  get_answers : list (result AppStatus);
  dns : gmap string string;
  deployed : gset string }.

Definition cluster_create (name : string) (app : MarathonApp) (w : Cluster)
  : result create_reply * Cluster :=
  (create_answer w,
   match create_answer w with
   | Return (Created _) =>
       {| create_answer := create_answer w; get_answers := get_answers w;
          dns := dns w; deployed := {[ name ]} ∪ deployed w |}
   | _ => w
   end).

Definition cluster_get (name : string) (embed_tasks : bool) (w : Cluster)
  : result AppStatus * Cluster :=
  match get_answers w with
  | [] => (Raise NotFoundError, w)
  | a :: rest =>
      (a, {| create_answer := create_answer w; get_answers := rest;
             dns := dns w; deployed := deployed w |})
  end.

Definition cluster_delete (name : string) (w : Cluster)
  : result unit * Cluster :=
  (Return tt,
   {| create_answer := create_answer w; get_answers := get_answers w;
      dns := dns w; deployed := deployed w ∖ {[ name ]} |}).

Definition cluster_resolve (hostname : string) (w : Cluster)
  : result string * Cluster :=
  match dns w !! hostname with
  | Some address => (Return address, w)
  | None => (Raise gaierror, w)
  end.

Definition InvalidChoiceError : exn := Exception "InvalidChoiceError".

(** The attributes a volume may have, as keys of the REST format. *)
Definition volume_keys : gset string :=
  list_to_set ["containerPath"; "hostPath"; "mode"; "persistent"; "external"].

(** [MarathonContainerVolume.from_json] on a dictionary with keys in the
    REST format: the keys become keyword arguments, so a key that is not
    an attribute is a [TypeError]; attributes left out take their
    defaults, [RW] for the mode; a mode other than [RO] and [RW] is
    refused. *)
Definition json_volume (v : gmap string string)
  : result MarathonContainerVolume :=
  if bool_decide (dom v ⊆ volume_keys)
  then
    let m := default "RW" (v !! "mode") in
    if bool_decide (m = "RO" \/ m = "RW")
    then Return {| container_path := v !! "containerPath";
                   host_path := v !! "hostPath";
                   mode := m;
                   persistent := v !! "persistent";
                   external := v !! "external" |}
    else Raise InvalidChoiceError
  else Raise TypeError.

(** [MarathonConstraint.from_json] on a list: two elements are a field
    and an operator, three add a value; with fewer than two nothing is
    built and [None] is returned; more than three cannot be unpacked
    into three names, a [ValueError]. *)
Definition json_constraint (c : list string)
  : result (option MarathonConstraint) :=
  match c with
  | [f; o] => Return (Some {| field := f; operator := o; value := None |})
  | [f; o; v] =>
      Return (Some {| field := f; operator := o; value := Some v |})
  | [] | [_] => Return None
  | _ => Raise ValueError
  end.

#[global] Instance cluster_marathon : Marathon Cluster := {
  create_app := cluster_create;
  get_app := cluster_get;
  delete_app := cluster_delete;
  gethostbyname := cluster_resolve;
  sleep := fun _ w => w;
  volume_from_json := json_volume;
  constraint_from_json := json_constraint }.

(** A client that, like the package's own, reports the deletion of a
    workload that does not exist as an error. *)
Definition strict_delete (name : string) (w : Cluster)
  : result unit * Cluster :=
  if bool_decide (name ∈ deployed w)
  then cluster_delete name w
  else (Raise NotFoundError, w).

Definition strict_marathon : Marathon Cluster := {|
  create_app := cluster_create;
  get_app := cluster_get;
  delete_app := strict_delete;
  gethostbyname := cluster_resolve;
  sleep := fun _ w => w;
  volume_from_json := json_volume;
  constraint_from_json := json_constraint |}.

(** A spawner for the user [alice] with the class defaults, a limit of
    1.5 MiB, one placement constraint and five seconds to start. *)
Definition alice : Spawner := {|
  app_image := "jupyterhub/singleuser";
  app_prefix := "jupyter";
  marathon_host := "http://marathon:8080";
  marathon_constraints := [ ["hostname"; "UNIQUE"] ];
  ports := [8888];
  volumes := [];
  network_mode := "BRIDGE";
  hub_ip_connect := "";
  user_name := "alice";
  hub_api_url := "http://127.0.0.1:8081/hub/api";
  hub_server_base_url := "/hub/";
  notebook_dir := "";
  mem_limit := 1572864;
  cpu_limit := None;
  start_timeout := 5;
  inherited_env := ∅ |}.

Definition fresh_server : Server :=
  {| ip := ""; port := 0;
     cookie_name := "jupyter-hub-token-alice"; base_url := "/user/alice" |}.

Definition boot (w : Cluster) : Machine Cluster :=
  {| world := w; server := fresh_server; calls := [] |}.

Definition status (healthy : Z) (ts : list MarathonTask) : AppStatus :=
  {| tasks_healthy := Some healthy; tasks := ts |}.

Definition task1 : MarathonTask :=
  {| host := "agent-7"; task_ports := [31005; 31006] |}.

Definition accepting (answers : list (result AppStatus)) : Cluster :=
  {| create_answer := Return (Created (status 0 []));
     get_answers := answers;
     dns := {[ "agent-7" := "10.0.0.7" ]};
     deployed := ∅ |}.

Definition refusing (answer : result create_reply) : Cluster :=
  {| create_answer := answer;
     get_answers := [];
     dns := ∅;
     deployed := ∅ |}.

(** The scripted runs used below. *)
Definition with_mem_limit (n : Z) (self : Spawner) : Spawner := {|
  app_image := app_image self;
  app_prefix := app_prefix self;
  marathon_host := marathon_host self;
  marathon_constraints := marathon_constraints self;
  ports := ports self;
  volumes := volumes self;
  network_mode := network_mode self;
  hub_ip_connect := hub_ip_connect self;
  user_name := user_name self;
  hub_api_url := hub_api_url self;
  hub_server_base_url := hub_server_base_url self;
  notebook_dir := notebook_dir self;
  mem_limit := n;
  cpu_limit := cpu_limit self;
  start_timeout := start_timeout self;
  inherited_env := inherited_env self |}.

(** Three queries answered with "not found", then a healthy workload
    with one task. *)
Definition transient_then_healthy : Cluster :=
  accepting [ Raise NotFoundError; Raise NotFoundError; Raise NotFoundError;
              Return (status 1 []); Return (status 1 [task1]) ].

(** A workload that never gets healthy. *)
Definition never_healthy : Cluster :=
  accepting [ Return (status 0 []); Return (status 0 []);
              Return (status 0 []); Return (status 0 []);
              Return (status 0 []) ].

(** The doubles 1.0 and 1.5. *)
Definition f1_0 : float := S754_finite false 4503599627370496 (-52).
Definition f1_5 : float := S754_finite false 6755399441055744 (-52).

(** [alice] with other placement constraints, another public hub address
    and another start timeout. *)
Definition alice_with (cs : list (list string)) (hub_ip : string)
  (timeout : Z) : Spawner := {|
  app_image := app_image alice;
  app_prefix := app_prefix alice;
  marathon_host := marathon_host alice;
  marathon_constraints := cs;
  ports := ports alice;
  volumes := volumes alice;
  network_mode := network_mode alice;
  hub_ip_connect := hub_ip;
  user_name := user_name alice;
  hub_api_url := hub_api_url alice;
  hub_server_base_url := hub_server_base_url alice;
  notebook_dir := notebook_dir alice;
  mem_limit := mem_limit alice;
  cpu_limit := cpu_limit alice;
  start_timeout := timeout;
  inherited_env := inherited_env alice |}.

(** A hub reached through another address whose API URL names no
    scheme and no port. *)
Definition stray_hub : Spawner := {|
  app_image := app_image alice;
  app_prefix := app_prefix alice;
  marathon_host := marathon_host alice;
  marathon_constraints := marathon_constraints alice;
  ports := ports alice;
  volumes := volumes alice;
  network_mode := network_mode alice;
  hub_ip_connect := "192.168.1.10";
  user_name := user_name alice;
  hub_api_url := "hub.local/hub/api";
  hub_server_base_url := hub_server_base_url alice;
  notebook_dir := notebook_dir alice;
  mem_limit := mem_limit alice;
  cpu_limit := cpu_limit alice;
  start_timeout := start_timeout alice;
  inherited_env := inherited_env alice |}.

(** A hub that is reached through the address 192.168.1.10. *)
Definition behind_proxy : Spawner :=
  alice_with [ ["hostname"; "UNIQUE"] ] "192.168.1.10" 5.

(** No time to start at all. *)
Definition impatient : Spawner := alice_with [ ["hostname"; "UNIQUE"] ] "" 0.

(** A workload reported healthy whose task list comes back empty. *)
Definition healthy_without_task : Cluster :=
  accepting [ Return (status 1 []); Return (status 1 []) ].

(** A task that has not been given a port. *)
Definition task_without_port : MarathonTask :=
  {| host := "agent-7"; task_ports := [] |}.

(** ** What a poll observes *)

(** The answer [poll] gives for one reply of [get_app]. *)
Definition poll_signal (reply : result AppStatus) : option string :=
  match reply with
  | Raise _ => Some ""
  | Return app =>
      if bool_decide (tasks_healthy app = Some 1) then None else Some ""
  end.

Definition query_failed (reply : result AppStatus) : bool :=
  match reply with Raise _ => true | Return _ => false end.

Definition not_ready (reply : result AppStatus) : bool :=
  match poll_signal reply with None => false | Some _ => true end.

(** The iterations of [start]'s loop that do not see a healthy workload
    leave this record of calls: a status query, then a pause of one
    second. *)
Fixpoint idle_rounds (name : string) (k : nat) : list call :=
  match k with
  | O => []
  | S k' => GetApp name false :: Sleep 1 :: idle_rounds name k'
  end.

Definition is_poll (c : call) : bool :=
  match c with GetApp _ false => true | _ => false end.

Definition is_sleep (c : call) : bool :=
  match c with Sleep _ => true | _ => false end.

Definition is_delete (c : call) : bool :=
  match c with DeleteApp _ => true | _ => false end.

Definition is_create (c : call) : bool :=
  match c with CreateApp _ _ => true | _ => false end.

(** A result that is a value. *)
Definition returns {A} (r : result A) : Prop := exists a, r = Return a.

(** The text [sep] occurs in [s]. *)
Definition occurs (sep s : string) : Prop :=
  exists before after, s = before +:+ sep +:+ after.

(** The variables [get_env] sets itself. *)
Definition spawner_variables : list string :=
  [ "JPY_USER"; "JPY_COOKIE_NAME"; "JPY_BASE_URL"; "JPY_HUB_PREFIX";
    "NOTEBOOK_DIR"; "JPY_HUB_API_URL" ].

(** The calls with which a run of the loop of [start] may end after its
    idle rounds: nothing, a healthy status query followed by the
    discovery query, or these two followed by a name lookup. *)
Inductive loop_tail (name : string) : list call -> Prop :=
| tail_exhausted : loop_tail name []
| tail_discovery :
    loop_tail name [GetApp name false; GetApp name true]
| tail_lookup (hostname : string) :
    loop_tail name
      [GetApp name false; GetApp name true; GetHostByName hostname].

Fixpoint count (p : call -> bool) (cs : list call) : nat :=
  match cs with
  | [] => 0
  | c :: cs' => (if p c then 1 else 0) + count p cs'
  end.

(** Every orchestrator call in the record names the workload [name]. *)
Definition keyed_by (name : string) (c : call) : Prop :=
  match c with
  | CreateApp n app => n = name /\ app_id app = name
  | GetApp n _ => n = name
  | DeleteApp n => n = name
  | GetHostByName _ => True
  | Sleep _ => True
  end.

(** What holds of the calls one run of the loop adds: they are bounded by
    the iteration count, every pause lasts one second, every call names
    the workload, and nothing is deleted. *)
Definition loop_calls_ok (name : string) (n : nat) (cs : list call) : Prop :=
  (count is_poll cs <= n)%nat /\
  (count is_sleep cs <= count is_poll cs)%nat /\
  Forall (fun c => is_sleep c = true -> c = Sleep 1) cs /\
  Forall (keyed_by name) cs /\
  count is_delete cs = 0%nat.

(** What [start] may do to the server record, given its result. *)
Definition server_after (srv : Server) (r : result (option (string * Z)))
  : Server :=
  match r with
  | Return (Some (address, p)) => set_port p (set_ip address srv)
  | _ => srv
  end.

Section Polling.
Context {W : Type} `{Marathon W}.

(** The machine after an outside call was answered with world [w]. *)
Definition answered (s : Machine W) (w : W) (cs : list call) : Machine W :=
  {| world := w; server := server s; calls := calls s ++ cs |}.


(** The world after [k] successive status queries for [name], each
    answered in a way [accept] admits and followed by a pause of one
    second; [None] if one of the answers is not admitted. *)
Fixpoint after_polls (accept : result AppStatus -> bool) (name : string)
  (k : nat) (w : W) : option W :=
  match k with
  | O => Some w
  | S k' =>
      let '(reply, w') := get_app name false w in
      if accept reply then after_polls accept name k' (sleep 1 w') else None
  end.

(** What [start] does with the result of address discovery. *)
Definition finish (r : result (string * Z) * Machine W)
  : result (option (string * Z)) * Machine W :=
  match r with
  | (Return (address, p), s2) =>
      (Return (Some (address, p)),
       {| world := world s2;
          server := set_port p (set_ip address (server s2));
          calls := calls s2 |})
  | (Raise e, s2) => (Raise e, s2)
  end.

End Polling.

(** ** Basic facts about the methods *)

Ltac calls_ok :=
  unfold loop_calls_ok;
  repeat match goal with |- _ /\ _ => split end; simpl;
  repeat match goal with
         | |- Forall _ [] => apply Forall_nil_2
         | |- Forall _ (_ :: _) => constructor
         end; simpl;
  try done; try lia.

Section Theory.
Context {W : Type} `{Marathon W}.
Variable self : Spawner.

Local Abbreviation name := (container_name self).

Lemma answered_nil (s : Machine W) : answered s (world s) [] = s.
Proof. destruct s; unfold answered; simpl. by rewrite app_nil_r. Qed.

Lemma answered_answered (s : Machine W) w1 w2 cs1 cs2 :
  answered (answered s w1 cs1) w2 cs2 = answered s w2 (cs1 ++ cs2).
Proof. unfold answered; simpl. by rewrite app_assoc. Qed.

Lemma poll_run (s : Machine W) :
  poll self s =
    (Return (poll_signal (get_app name false (world s)).1),
     answered s (get_app name false (world s)).2 [GetApp name false]).
Proof.
  unfold poll, bind, try, outside, answered.
  destruct (get_app name false (world s)) as [[app|e] w']; simpl; [|done].
  by destruct (bool_decide (tasks_healthy app = Some 1)).
Qed.

(** Building the request reads the machine and leaves it as it was. *)
Lemma get_env_state (s : Machine W) : (get_env self s).2 = s.
Proof.
  unfold get_env, bind, get_server, lift, ret.
  destruct (truthy (hub_ip_connect self)); [|done].
  by destruct (_public_hub_api_url self).
Qed.

Lemma app_request_state (s : Machine W) : (app_request self s).2 = s.
Proof.
  unfold app_request, bind, lift, ret.
  destruct (get_volumes self); [|done].
  destruct (mem_request self); [|done].
  pose proof (get_env_state s) as He.
  destruct (get_env self s) as [[env|e] s1]; simpl in He; subst s1; [|done].
  by destruct (get_constraints self).
Qed.

Lemma app_request_id (s : Machine W) req s' :
  app_request self s = (Return req, s') -> app_id req = name.
Proof.
  unfold app_request, bind, lift, ret.
  destruct (get_volumes self); [|done].
  destruct (mem_request self); [|done].
  destruct (get_env self s) as [[env|e] s1]; [|done].
  destruct (get_constraints self); [|done].
  by intros [= <- _].
Qed.

(** [get_constraints] never hands a list back. *)
Lemma get_constraints_none cs :
  get_constraints self = Return cs -> cs = None.
Proof.
  unfold get_constraints.
  destruct (append_each _ _ _); [|done]. by intros [= <-].
Qed.

Lemma app_request_constraints (s : Machine W) req s' :
  app_request self s = (Return req, s') -> constraints req = None.
Proof.
  unfold app_request, bind, lift, ret.
  destruct (get_volumes self); [|done].
  destruct (mem_request self); [|done].
  destruct (get_env self s) as [[env|e] s1]; [|done].
  destruct (get_constraints self) as [cs|] eqn:Hc; [|done].
  intros [= <- _]; simpl. by apply get_constraints_none.
Qed.

Lemma app_request_mem (s : Machine W) req s' :
  app_request self s = (Return req, s') -> mem_request self = Return (mem req).
Proof.
  unfold app_request, bind, lift, ret.
  destruct (get_volumes self); [|done].
  destruct (mem_request self); [|done].
  destruct (get_env self s) as [[env|e] s1]; [|done].
  destruct (get_constraints self); [|done].
  by intros [= <- _].
Qed.

(** One iteration that sees something else than a healthy workload
    pauses for a second and goes on with the rest of the loop. *)
Lemma start_loop_idle (n : nat) (s : Machine W) reply w' :
  get_app name false (world s) = (reply, w') ->
  not_ready reply = true ->
  start_loop self (S n) s =
    start_loop self n (answered s (sleep 1 w') [GetApp name false; Sleep 1]).
Proof.
  intros Hq Hn. simpl. unfold bind at 1. rewrite poll_run, Hq. simpl.
  unfold not_ready in Hn.
  destruct (poll_signal reply); [|done].
  unfold bind, outside. simpl. f_equal.
  unfold answered; simpl. by rewrite <- app_assoc.
Qed.

Lemma query_failed_not_ready reply :
  query_failed reply = true -> not_ready reply = true.
Proof. by destruct reply. Qed.

Lemma after_polls_weaken (p q : result AppStatus -> bool) k (w w' : W) :
  (forall r, p r = true -> q r = true) ->
  after_polls p name k w = Some w' -> after_polls q name k w = Some w'.
Proof.
  intros Hpq. revert w. induction k as [|k IH]; intros w; simpl; [done|].
  destruct (get_app name false w) as [reply w1].
  destruct (p reply) eqn:Hp; [|done].
  rewrite (Hpq _ Hp). apply IH.
Qed.

(** [k] idle iterations in a row. *)
Lemma start_loop_idle_rounds (k n : nat) (s : Machine W) wk :
  after_polls not_ready name k (world s) = Some wk ->
  start_loop self (k + n) s =
    start_loop self n (answered s wk (idle_rounds name k)).
Proof.
  revert s. induction k as [|k IH]; intros s Hk; simpl in Hk.
  - injection Hk as <-. by rewrite answered_nil.
  - destruct (get_app name false (world s)) as [reply w'] eqn:Hq.
    destruct (not_ready reply) eqn:Hn; [|done].
    replace (S k + n)%nat with (S (k + n)) by lia.
    rewrite (start_loop_idle _ _ _ _ Hq Hn), IH by done.
    by rewrite answered_answered.
Qed.

(** Address discovery, step by step. *)
Lemma get_ip_and_port_run (s : Machine W) :
  get_ip_and_port self s =
    match get_app name true (world s) with
    | (Raise e, w1) => (Raise e, answered s w1 [GetApp name true])
    | (Return app, w1) =>
        match tasks app with
        | [task] =>
            match gethostbyname (host task) w1 with
            | (Raise e, w2) =>
                (Raise e,
                 answered s w2 [GetApp name true; GetHostByName (host task)])
            | (Return address, w2) =>
                (match task_ports task with
                 | p :: _ => Return (address, p)
                 | [] => Raise IndexError
                 end,
                 answered s w2 [GetApp name true; GetHostByName (host task)])
            end
        | _ => (Raise AssertionError, answered s w1 [GetApp name true])
        end
    end.
Proof.
  unfold get_ip_and_port, bind, outside, lift, ret, answered.
  destruct (get_app name true (world s)) as [[app|e] w1]; simpl; [|done].
  destruct (tasks app) as [|task [|task' ts]]; simpl; try done.
  destruct (gethostbyname (host task) w1) as [[address|e] w2]; simpl.
  - rewrite <- app_assoc. simpl. by destruct (task_ports task).
  - by rewrite <- app_assoc.
Qed.

(** One iteration of the loop of [start]. *)
Lemma start_loop_step (n : nat) (s : Machine W) :
  start_loop self (S n) s =
    let reply := (get_app name false (world s)).1 in
    let w' := (get_app name false (world s)).2 in
    match poll_signal reply with
    | Some _ =>
        start_loop self n
          (answered s (sleep 1 w') [GetApp name false; Sleep 1])
    | None =>
        match get_ip_and_port self (answered s w' [GetApp name false]) with
        | (Return (address, p), s2) =>
            (Return (Some (address, p)),
             {| world := world s2;
                server := set_port p (set_ip address (server s2));
                calls := calls s2 |})
        | (Raise e, s2) => (Raise e, s2)
        end
    end.
Proof.
  simpl. unfold bind at 1. rewrite poll_run. simpl.
  destruct (poll_signal _).
  - unfold bind, outside. simpl. f_equal.
    unfold answered; simpl. by rewrite <- app_assoc.
  - unfold bind at 1.
    by destruct (get_ip_and_port self _) as [[[address p]|e] s2].
Qed.

End Theory.

(** ** The record of calls a launch leaves *)

Lemma count_app (p : call -> bool) (cs1 cs2 : list call) :
  count p (cs1 ++ cs2) = (count p cs1 + count p cs2)%nat.
Proof. induction cs1 as [|c cs1 IH]; simpl; [done|]. rewrite IH. lia. Qed.

Lemma count_idle_rounds_poll (n : string) (k : nat) :
  count is_poll (idle_rounds n k) = k.
Proof. induction k as [|k IH]; simpl; [done|]. by rewrite IH. Qed.

Lemma count_idle_rounds_sleep (n : string) (k : nat) :
  count is_sleep (idle_rounds n k) = k.
Proof. induction k as [|k IH]; simpl; [done|]. by rewrite IH. Qed.

Section Launch.
Context {W : Type} `{Marathon W}.
Variable self : Spawner.

Local Abbreviation name := (container_name self).

Lemma get_ip_and_port_calls (s : Machine W) :
  exists cs,
    calls (get_ip_and_port self s).2 = calls s ++ cs /\
    server (get_ip_and_port self s).2 = server s /\
    loop_calls_ok name 0 cs.
Proof.
  rewrite get_ip_and_port_run.
  destruct (get_app name true (world s)) as [[app|e] w1].
  - destruct (tasks app) as [|task [|task' ts]].
    + exists [GetApp name true]. calls_ok.
    + destruct (gethostbyname (host task) w1) as [[address|e] w2];
        exists [GetApp name true; GetHostByName (host task)];
        calls_ok.
    + exists [GetApp name true]. calls_ok.
  - exists [GetApp name true]. calls_ok.
Qed.

Lemma start_loop_calls (n : nat) (s : Machine W) :
  exists cs,
    calls (start_loop self n s).2 = calls s ++ cs /\ loop_calls_ok name n cs.
Proof.
  revert s. induction n as [|n IH]; intros s.
  - exists []. simpl. rewrite app_nil_r. calls_ok.
  - simpl. unfold bind at 1. rewrite poll_run. simpl.
    destruct (get_app name false (world s)) as [reply w'] eqn:Hq. simpl.
    destruct (poll_signal reply) eqn:Hp.
    + unfold bind at 1. unfold outside at 1. simpl.
      match goal with |- context [start_loop self n ?s1] =>
        destruct (IH s1) as (cs & Hcs & Hp1 & Hs1 & Hf1 & Hk1 & Hd1);
        exists (GetApp name false :: Sleep 1 :: cs)
      end.
      split.
      { rewrite Hcs. simpl. by rewrite <- !app_assoc. }
      calls_ok.
    + unfold bind at 1.
      match goal with |- context [get_ip_and_port self ?s1] =>
        destruct (get_ip_and_port_calls s1)
          as (cs & Hcs & _ & Hp1 & Hs1 & Hf1 & Hk1 & Hd1);
        destruct (get_ip_and_port self s1) as [[[address p]|e] s2]
      end; simpl in *;
      exists (GetApp name false :: cs);
      (split; [rewrite Hcs; simpl; by rewrite <- !app_assoc|]);
      calls_ok.
Qed.

End Launch.

(** ** The launch state machine *)

Section Outcomes.
Context {W : Type} `{Marathon W}.
Variable self : Spawner.

Local Abbreviation name := (container_name self).

(** [start] once the request is built: one [create_app], then the
    loop if the application was created. *)
Lemma start_run (s : Machine W) req :
  (app_request self s).1 = Return req ->
  start self s =
    match create_app name req (world s) with
    | (Return (Created _), w0) =>
        start_loop self (Z.to_nat (start_timeout self))
          (answered s w0 [CreateApp name req])
    | (_, w0) => (Return None, answered s w0 [CreateApp name req])
    end.
Proof.
  intros Hreq. unfold start. unfold bind at 1.
  pose proof (app_request_state self s) as Hs.
  destruct (app_request self s) as [r s1]. simpl in *. subst r s1.
  unfold bind, try, outside, ret, answered.
  by destruct (create_app name req (world s)) as [[[a|]|e] w0].
Qed.

(** A loop that sees a healthy workload after [k] idle iterations, and
    whose address discovery goes through, writes the endpoint to the
    server record and returns it. *)
Lemma start_loop_ready (k n : nat) (s : Machine W)
    wk app w1 found w2 task address w3 p ps :
  (k < n)%nat ->
  after_polls not_ready name k (world s) = Some wk ->
  get_app name false wk = (Return app, w1) ->
  tasks_healthy app = Some 1 ->
  get_app name true w1 = (Return found, w2) ->
  tasks found = [task] ->
  gethostbyname (host task) w2 = (Return address, w3) ->
  task_ports task = p :: ps ->
  start_loop self n s =
    (Return (Some (address, p)),
     {| world := w3;
        server := set_port p (set_ip address (server s));
        calls := calls s ++ idle_rounds name k ++
                 [GetApp name false; GetApp name true;
                  GetHostByName (host task)] |}).
Proof.
  intros Hk Hidle Hq Hh Hq' Ht Hr Hp.
  replace n with (k + S (n - k - 1))%nat by lia.
  rewrite (start_loop_idle_rounds self k _ s wk Hidle).
  simpl. unfold bind at 1. rewrite poll_run. simpl. rewrite Hq. simpl.
  rewrite bool_decide_eq_true_2 by done.
  unfold bind at 1. rewrite get_ip_and_port_run. simpl.
  rewrite Hq', Ht, Hr, Hp.
  unfold bind, modify_server, ret. simpl.
  by rewrite <- !app_assoc.
Qed.

(** C1: a status query that raises during the loop of [start] counts as
    not yet running: the iteration pauses for a second and the loop goes
    on with the iterations that remain.  In particular, when the first
    [k] queries raise, [k] is below [start_timeout], the next query
    reports one healthy task and address discovery goes through (one
    task, a host that resolves, a first port), [start] returns the
    endpoint, having made [k] idle rounds, the successful query and the
    discovery calls. *)
Theorem start_survives_failed_queries (s : Machine W) :
  (forall n e w',
     get_app name false (world s) = (Raise e, w') ->
     start_loop self (S n) s =
       start_loop self n
         (answered s (sleep 1 w') [GetApp name false; Sleep 1])) /\
  (forall req created w0 k wk app w1 found w2 task address w3 p ps,
     (app_request self s).1 = Return req ->
     create_app name req (world s) = (Return (Created created), w0) ->
     (k < Z.to_nat (start_timeout self))%nat ->
     after_polls query_failed name k w0 = Some wk ->
     get_app name false wk = (Return app, w1) ->
     tasks_healthy app = Some 1 ->
     get_app name true w1 = (Return found, w2) ->
     tasks found = [task] ->
     gethostbyname (host task) w2 = (Return address, w3) ->
     task_ports task = p :: ps ->
     start self s =
       (Return (Some (address, p)),
        {| world := w3;
           server := set_port p (set_ip address (server s));
           calls := calls s ++ CreateApp name req :: idle_rounds name k ++
                    [GetApp name false; GetApp name true;
                     GetHostByName (host task)] |})).
Proof.
  split.
  - intros n e w' Hq. by apply (start_loop_idle self n s (Raise e) w').
  - intros req created w0 k wk app w1 found w2 task address w3 p ps
      Hreq Hc Hk Hfail Hq Hh Hq' Ht Hr Hp.
    rewrite (start_run s req Hreq), Hc.
    apply (after_polls_weaken self query_failed not_ready) in Hfail;
      [|apply query_failed_not_ready].
    rewrite (start_loop_ready k _ (answered s w0 [CreateApp name req])
               wk app w1 found w2 task address w3 p ps); try done.
    simpl. by rewrite <- app_assoc.
Qed.

(** C2: once [create_app] has accepted the request, the loop of [start]
    makes at most [start_timeout] status queries, never more pauses than
    queries, and each pause is [sleep(1)]; and when none of the
    [start_timeout] queries sees a healthy workload, [start] returns
    [None] without raising, after exactly [start_timeout] rounds of one
    query and one pause of a second. *)
Theorem start_times_out (s : Machine W) req created w0 :
  (app_request self s).1 = Return req ->
  create_app name req (world s) = (Return (Created created), w0) ->
  (exists cs,
     calls (start self s).2 = calls s ++ CreateApp name req :: cs /\
     (count is_poll cs <= Z.to_nat (start_timeout self))%nat /\
     (count is_sleep cs <= count is_poll cs)%nat /\
     Forall (fun c => is_sleep c = true -> c = Sleep 1) cs) /\
  (forall wn,
     after_polls not_ready name (Z.to_nat (start_timeout self)) w0 = Some wn ->
     start self s =
       (Return None,
        answered s wn
          (CreateApp name req
             :: idle_rounds name (Z.to_nat (start_timeout self))))).
Proof.
  intros Hreq Hc. rewrite (start_run s req Hreq), Hc. split.
  - destruct (start_loop_calls self (Z.to_nat (start_timeout self))
                (answered s w0 [CreateApp name req]))
      as (cs & Hcs & Hp & Hs & Hf & _).
    exists cs. rewrite Hcs. simpl. by rewrite <- app_assoc.
  - intros wn Hidle.
    pose proof (start_loop_idle_rounds self (Z.to_nat (start_timeout self)) 0
                  (answered s w0 [CreateApp name req]) wn Hidle) as Hrun.
    rewrite Nat.add_0_r in Hrun. rewrite Hrun. simpl.
    by rewrite answered_answered.
Qed.

(** C3, as the code has it: whether [create_app] returns [False] or
    raises any exception, [start] gives the same answer, [None]; the
    only outside call made is the [create_app] itself, so no status
    query and no [delete_app], and the server record is untouched. *)
Theorem start_submission_failure (s : Machine W) req answer w0 :
  (app_request self s).1 = Return req ->
  create_app name req (world s) = (answer, w0) ->
  answer = Return ReturnedFalse \/ (exists e, answer = Raise e) ->
  start self s =
    (Return None,
     {| world := w0; server := server s;
        calls := calls s ++ [CreateApp name req] |}).
Proof.
  intros Hreq Hc Hfail. rewrite (start_run s req Hreq), Hc.
  by destruct Hfail as [->|[e ->]].
Qed.

(** C4: [poll] always returns, never raises; it returns [None] (running)
    exactly when [get_app] answers with an application whose count of
    healthy tasks is 1, and the empty string for every other count and
    for every failure of the query. *)
Theorem poll_signals_one_healthy_task (s : Machine W) :
  exists v,
    (poll self s).1 = Return v /\
    (v = None <->
       exists app, (get_app name false (world s)).1 = Return app /\
                   tasks_healthy app = Some 1) /\
    (v <> None -> v = Some "").
Proof.
  rewrite poll_run. simpl.
  exists (poll_signal (get_app name false (world s)).1).
  split; [done|].
  destruct (get_app name false (world s)) as [[app|e] w']; simpl.
  - destruct (bool_decide (tasks_healthy app = Some 1)) eqn:Hb.
    + apply bool_decide_eq_true_1 in Hb. split; [|done].
      split; [|done]. intros _. by exists app.
    + apply bool_decide_eq_false_1 in Hb. split; [|done].
      split; [done|]. intros (app' & [= <-] & Hh). done.
  - split; [|done]. split; [done|]. by intros (app & Habs & _).
Qed.

(** C5, as the code has it: when the query with embedded tasks answers
    with one task, whose host resolves to [address] and whose first
    port is [p], [get_ip_and_port] returns [(address, p)]; when the
    number of tasks is not one, the [assert] fails with
    [AssertionError]; when the name lookup raises, that very exception
    comes out of [get_ip_and_port]. *)
Theorem get_ip_and_port_outcomes (s : Machine W) app w1 :
  get_app name true (world s) = (Return app, w1) ->
  (forall task address w2 p ps,
     tasks app = [task] ->
     gethostbyname (host task) w1 = (Return address, w2) ->
     task_ports task = p :: ps ->
     (get_ip_and_port self s).1 = Return (address, p)) /\
  (length (tasks app) <> 1%nat ->
     (get_ip_and_port self s).1 = Raise AssertionError) /\
  (forall task e w2,
     tasks app = [task] ->
     gethostbyname (host task) w1 = (Raise e, w2) ->
     (get_ip_and_port self s).1 = Raise e).
Proof.
  intros Hq. rewrite get_ip_and_port_run, Hq. repeat split.
  - intros task address w2 p ps -> -> ->. done.
  - intros Hlen. by destruct (tasks app) as [|task [|task' ts]].
  - intros task e w2 -> ->. done.
Qed.

End Outcomes.

(** ** Effects on the server record, the workload key, teardown *)

Section Effects.
Context {W : Type} `{Marathon W}.
Variable self : Spawner.

Local Abbreviation name := (container_name self).

Lemma start_loop_server (n : nat) (s : Machine W) :
  server (start_loop self n s).2 =
    server_after (server s) (start_loop self n s).1.
Proof.
  revert s. induction n as [|n IH]; intros s; [done|].
  rewrite start_loop_step. simpl.
  destruct (poll_signal _).
  - by rewrite IH.
  - match goal with |- context [get_ip_and_port self ?s1] =>
      destruct (get_ip_and_port_calls self s1) as (cs & _ & Hsrv & _);
      destruct (get_ip_and_port self s1) as [[[address p]|e] s2]
    end; simpl in *; [|done].
    by rewrite Hsrv.
Qed.

(** C10: when [start] returns an [(ip, port)] pair, the server record it
    leaves behind is the one it found with [ip] and [port] overwritten
    by that pair; when it returns [None] or raises, the server record
    is the one it found. *)
Theorem start_writes_server_only_when_ready (s : Machine W) :
  match start self s with
  | (Return (Some (address, p)), s') =>
      server s' = set_port p (set_ip address (server s)) /\
      ip (server s') = address /\ port (server s') = p
  | (_, s') => server s' = server s
  end.
Proof.
  assert (server (start self s).2 = server_after (server s) (start self s).1)
    as Hsrv.
  { destruct (app_request self s) as [[req|e] s1] eqn:Hreq.
    - rewrite (start_run self s req) by (by rewrite Hreq).
      destruct (create_app name req (world s)) as [[[a|]|e] w0]; try done.
      by rewrite start_loop_server.
    - unfold start, bind. rewrite Hreq. simpl.
      pose proof (app_request_state self s) as Hs. rewrite Hreq in Hs.
      simpl in Hs. by subst s1. }
  destruct (start self s) as [[[[address p]|]|e] s']; simpl in *; try done.
  by rewrite Hsrv.
Qed.

Lemma stop_run (now : bool) (s : Machine W) :
  stop self now s =
    (match (delete_app name (world s)).1 with
     | Return _ => Return tt
     | Raise e => Raise e
     end,
     answered s (delete_app name (world s)).2 [DeleteApp name]).
Proof.
  unfold stop, bind, outside, ret, answered.
  by destruct (delete_app name (world s)) as [[[]|e] w'].
Qed.

(** The first thing an iteration of the loop does is ask for the status
    of the workload. *)
Lemma start_loop_first_call (n : nat) (s : Machine W) :
  exists rest,
    calls (start_loop self (S n) s).2 = calls s ++ GetApp name false :: rest /\
    Forall (keyed_by name) rest.
Proof.
  rewrite start_loop_step. simpl.
  destruct (poll_signal _).
  - match goal with |- context [start_loop self n ?s1] =>
      destruct (start_loop_calls self n s1) as (cs & Hcs & _ & _ & _ & Hk & _)
    end.
    exists (Sleep 1 :: cs). rewrite Hcs. simpl. rewrite <- app_assoc.
    split; [done|]. by constructor.
  - match goal with |- context [get_ip_and_port self ?s1] =>
      destruct (get_ip_and_port_calls self s1)
        as (cs & Hcs & _ & _ & _ & _ & Hk & _);
      destruct (get_ip_and_port self s1) as [[[address p]|e] s2]
    end; simpl in *; exists cs; rewrite Hcs; by rewrite <- app_assoc.
Qed.

Lemma get_ip_and_port_first_call (s : Machine W) :
  exists rest,
    calls (get_ip_and_port self s).2 = calls s ++ GetApp name true :: rest /\
    Forall (keyed_by name) rest.
Proof.
  rewrite get_ip_and_port_run.
  destruct (get_app name true (world s)) as [[app|e] w1];
    [|by exists []].
  destruct (tasks app) as [|task [|task' ts]]; [by exists []| |by exists []].
  exists [GetHostByName (host task)].
  destruct (gethostbyname (host task) w1) as [[address|e] w2];
    (split; [done|by repeat constructor]).
Qed.

(** C8, as the code has it: the workload's name is
    ["/" prefix "/" user], with a leading slash, a function of the
    configured prefix and the user's name that tells the users of one
    prefix apart.  It is the key of every request: [poll] makes exactly
    one status query, for this name; [get_ip_and_port] starts with the
    discovery query for this name; [stop] makes exactly one
    [delete_app], for this name; and [start], once its request is
    built, starts with [create_app] for this name and a request whose
    [id] is this name, goes on (when accepted with time to start) with
    a status query for this name, and makes no Marathon call under
    another name. *)
Theorem container_name_keys_every_call :
  name = "/" +:+ app_prefix self +:+ "/" +:+ user_name self /\
  (forall other : Spawner,
     app_prefix other = app_prefix self ->
     container_name other = name ->
     user_name other = user_name self) /\
  forall s : Machine W,
    calls (poll self s).2 = calls s ++ [GetApp name false] /\
    (exists rest,
       calls (get_ip_and_port self s).2 =
         calls s ++ GetApp name true :: rest /\
       Forall (keyed_by name) rest) /\
    (forall now, calls (stop self now s).2 = calls s ++ [DeleteApp name]) /\
    (forall req,
       (app_request self s).1 = Return req ->
       app_id req = name /\
       exists rest,
         calls (start self s).2 = calls s ++ CreateApp name req :: rest /\
         Forall (keyed_by name) rest /\
         (forall created w0,
            create_app name req (world s) = (Return (Created created), w0) ->
            0 < start_timeout self ->
            exists rest', rest = GetApp name false :: rest')) /\
    (forall e,
       (app_request self s).1 = Raise e ->
       calls (start self s).2 = calls s).
Proof.
  split; [done|]. split.
  { intros other Hprefix Hname. unfold container_name in Hname.
    rewrite Hprefix in Hname.
    apply (inj (String.app "/")) in Hname.
    apply (inj (String.app (app_prefix self))) in Hname.
    by apply (inj (String.app "/")) in Hname. }
  intros s. split; [by rewrite poll_run|].
  split; [apply get_ip_and_port_first_call|].
  split; [intros now; by rewrite stop_run|].
  split.
  2: { intros e Hreq. unfold start, bind.
       pose proof (app_request_state self s) as Hs.
       destruct (app_request self s) as [r s1]. simpl in *. by subst. }
  intros req Hreq.
  destruct (app_request self s) as [r s1] eqn:Hrun. simpl in Hreq. subst r.
  split; [by apply (app_request_id self s req s1)|].
  rewrite (start_run self s req) by (by rewrite Hrun).
  destruct (create_app name req (world s)) as [[[created|]|e] w0];
    [|exists []; by repeat split|exists []; by repeat split].
  destruct (Z.to_nat (start_timeout self)) as [|n] eqn:Hn.
  - exists []. simpl. split; [done|]. split; [done|].
    intros created' w0' _ Hpos. lia.
  - destruct (start_loop_first_call n (answered s w0 [CreateApp name req]))
      as (rest & Hcalls & Hkeyed).
    exists (GetApp name false :: rest). rewrite Hcalls. simpl.
    rewrite <- app_assoc. split; [done|].
    split; [by constructor|].
    intros created' w0' _ _. by exists rest.
Qed.

(** C6, as the code has it: [stop] is one [delete_app] call for the
    workload's name with no handling of its own.  It leaves the server
    record alone, returns without error exactly when that call returns
    and raises the call's exception otherwise.  So with a client whose
    [delete_app] returns, [stop] returns, and when the client returns
    again on the world the first call left, a second [stop] returns
    too, after two [delete_app] calls in all. *)
Theorem stop_succeeds_exactly_when_delete_does (now : bool) (s : Machine W) :
  calls (stop self now s).2 = calls s ++ [DeleteApp name] /\
  world (stop self now s).2 = (delete_app name (world s)).2 /\
  server (stop self now s).2 = server s /\
  ((stop self now s).1 = Return tt <->
     returns (delete_app name (world s)).1) /\
  (forall e,
     (stop self now s).1 = Raise e <->
     (delete_app name (world s)).1 = Raise e) /\
  (returns (delete_app name (world s)).1 ->
   returns (delete_app name (delete_app name (world s)).2).1 ->
   (stop self now s).1 = Return tt /\
   (stop self now (stop self now s).2).1 = Return tt /\
   calls (stop self now (stop self now s).2).2 =
     calls s ++ [DeleteApp name; DeleteApp name]).
Proof.
  rewrite !stop_run. simpl.
  destruct (delete_app name (world s)) as [[[]|e] w1]; simpl.
  - do 3 (split; [done|]). split; [split; [by eexists|done]|].
    split; [done|]. intros _ [r Hr]. split; [done|].
    rewrite Hr. split; [done|]. by rewrite <- app_assoc.
  - do 3 (split; [done|]). split; [split; [done|by intros [r Hr]]|].
    split; [intros e'; split; congruence|]. by intros [r Hr].
Qed.

End Effects.

(** ** The memory request as a double *)

Lemma digits2_pos_bounds (p : positive) :
  2 ^ (Zpos (digits2_pos p) - 1) <= Zpos p < 2 ^ Zpos (digits2_pos p).
Proof.
  induction p as [p IH|p IH|]; simpl digits2_pos.
  - rewrite Pos2Z.inj_succ.
    replace (Z.succ (Zpos (digits2_pos p)) - 1) with (Z.succ (Zpos (digits2_pos p) - 1)) by lia.
    rewrite !Z.pow_succ_r by lia. lia.
  - rewrite Pos2Z.inj_succ.
    replace (Z.succ (Zpos (digits2_pos p)) - 1) with (Z.succ (Zpos (digits2_pos p) - 1)) by lia.
    rewrite !Z.pow_succ_r by lia. lia.
  - simpl. lia.
Qed.

Lemma iter_xO_spec (p k : positive) :
  Zpos (Pos.iter xO p k) = Zpos p * 2 ^ Zpos k /\
  digits2_pos (Pos.iter xO p k) = (digits2_pos p + k)%positive.
Proof.
  induction k as [|k IH] using Pos.peano_ind.
  - simpl. split; [lia|]. lia.
  - rewrite Pos.iter_succ. destruct IH as [IH1 IH2]. split.
    + rewrite Pos2Z.inj_xO, IH1, Pos2Z.inj_succ, Z.pow_succ_r by lia. lia.
    + simpl. rewrite IH2. lia.
Qed.

(** Rounding a mantissa of exactly 53 bits changes nothing. *)
Lemma binary_round_aux_exact (sx : bool) (m : positive) (e : Z) :
  Zpos (digits2_pos m) = 53 ->
  -1074 <= e <= 971 ->
  binary_round_aux prec emax sx (Zpos m) e loc_Exact = S754_finite sx m e.
Proof.
  intros Hd He. unfold binary_round_aux, shr_fexp.
  simpl Zdigits2. rewrite Hd.
  replace (fexp prec emax (53 + e) - e) with 0 by (unfold fexp, emin; lia).
  simpl.
  rewrite Hd.
  replace (fexp prec emax (53 + e) - e) with 0 by (unfold fexp, emin; lia).
  simpl.
  destruct (Z.leb_spec e (1024 - 53)); [done|lia].
Qed.

(** A mantissa of 54 bits whose last bit is zero loses that bit. *)
Lemma binary_round_aux_exact_even (sx : bool) (m : positive) (e : Z) :
  Zpos (digits2_pos m) = 53 ->
  -1075 <= e <= 970 ->
  binary_round_aux prec emax sx (Zpos m~0) e loc_Exact = S754_finite sx m (e + 1).
Proof.
  intros Hd He. unfold binary_round_aux, shr_fexp.
  simpl Zdigits2. rewrite Pos2Z.inj_succ, Hd.
  replace (fexp prec emax (Z.succ 53 + e) - e) with 1 by (unfold fexp, emin; lia).
  simpl.
  rewrite Hd.
  replace (fexp prec emax (53 + (e + 1)) - (e + 1)) with 0 by (unfold fexp, emin; lia).
  simpl.
  destruct (Z.leb_spec (e + 1) (1024 - 53)); [done|lia].
Qed.

(** Dividing a normal double by [1024.0] lowers its exponent by ten. *)
Lemma div_by_1024 (sx : bool) (m : positive) (e : Z) :
  Zpos (digits2_pos m) = 53 ->
  -1063 <= e <= 981 ->
  SFdiv prec emax (S754_finite sx m e) f1024 = S754_finite sx m (e - 10).
Proof.
  intros Hd He. unfold f1024, SFdiv, SFdiv_core_binary, Zdigits2.
  rewrite Hd.
  change (digits2_pos 4503599627370496) with 53%positive.
  replace (Z.min (fexp prec emax (53 + e - (53 + -42))) (e - -42)) with (e - 11)
    by (unfold fexp, emin; lia).
  replace (e - -42 - (e - 11)) with 53 by lia.
  rewrite Z.shiftl_mul_pow2 by lia.
  assert (Z.div_eucl (Z.pos m * 2 ^ 53) 4503599627370496 = (Z.pos m~0, 0)) as ->.
  { pose proof (Z.div_eucl_eq (Z.pos m * 2 ^ 53) 4503599627370496 ltac:(lia)) as Heq.
    pose proof (Z.mod_pos_bound (Z.pos m * 2 ^ 53) 4503599627370496 ltac:(lia)) as Hb.
    unfold Z.modulo in Hb.
    destruct (Z.div_eucl (Z.pos m * 2 ^ 53) 4503599627370496) as [q r].
    change (2 ^ 53) with 9007199254740992 in *.
    assert (q = Z.pos m~0 /\ r = 0) as [-> ->] by lia. done. }
  replace (xorb sx false) with sx by (by destruct sx).
  change (new_location 4503599627370496 0) with loc_Exact.
  rewrite binary_round_aux_exact_even by (done || lia).
  f_equal. lia.
Qed.

(** An integer of at most 53 bits converts without rounding. *)
Lemma binary_round_int (sx : bool) (p : positive) :
  Zpos (digits2_pos p) <= 53 ->
  exists m,
    binary_round prec emax sx p 0 = S754_finite sx m (Zpos (digits2_pos p) - 53) /\
    Zpos (digits2_pos m) = 53 /\
    Zpos m = Zpos p * 2 ^ (53 - Zpos (digits2_pos p)).
Proof.
  intros Hd. unfold binary_round, shl_align.
  replace (fexp prec emax (Zpos (digits2_pos p) + 0) - 0)
    with (Zpos (digits2_pos p) - 53) by (unfold fexp, emin; lia).
  replace (fexp prec emax (Zpos (digits2_pos p) + 0))
    with (Zpos (digits2_pos p) - 53) by (unfold fexp, emin; lia).
  destruct (Zpos (digits2_pos p) - 53) as [|k|k] eqn:Hk; [| lia |].
  - exists p. replace (Zpos (digits2_pos p)) with 53 by lia.
    split; [|split; [lia|simpl; lia]].
    apply binary_round_aux_exact; lia.
  - exists (Pos.iter xO p k).
    destruct (iter_xO_spec p k) as [Hv Hdig].
    replace (53 - Zpos (digits2_pos p)) with (Zpos k) by lia.
    assert (Zpos (digits2_pos (Pos.iter xO p k)) = 53) as Hd53
      by (rewrite Hdig; lia).
    split; [|done].
    apply binary_round_aux_exact; [done|lia].
Qed.

(** [c * 2^j * 2^-(j+20)] is [c / 2^20]. *)
Lemma exact_quotient (c m e : Z) (j : Z) :
  0 <= j -> m = c * 2 ^ j -> e = - (j + 20) ->
  (inject_Z m * Qpower 2 e == c # 1048576)%Q.
Proof.
  intros Hj -> ->.
  rewrite Qpower_opp.
  rewrite inject_Z_mult.
  rewrite (Zpower_Qpower 2 j) by done.
  rewrite Qpower_plus by done.
  rewrite (Qmake_Qdiv c 1048576).
  change (inject_Z 2) with 2%Q.
  change (inject_Z (Z.pos 1048576)) with (Qpower 2 20).
  assert (~ (Qpower 2 j == 0)%Q) as Hnz.
  { apply Qpower_not_0. done. }
  field. exact Hnz.
Qed.

Lemma mem_request_finite (self : Spawner) (sx : bool) (p : positive) :
  mem_limit self = cond_Zopp sx (Zpos p) ->
  Zpos (digits2_pos p) <= 53 ->
  exists m,
    mem_request self = Return (S754_finite sx m (Zpos (digits2_pos p) - 73)) /\
    Zpos m = Zpos p * 2 ^ (53 - Zpos (digits2_pos p)).
Proof.
  intros Hz Hd.
  destruct (binary_round_int sx p Hd) as (m & Hr & Hm53 & Hm).
  exists m. split; [|done].
  pose proof (digits2_pos_bounds p) as Hb.
  assert (0 < Zpos (digits2_pos p)) by lia.
  unfold mem_request, int_truediv, float_of_int, float_truediv.
  rewrite Hz.
  assert (binary_normalize prec emax (cond_Zopp sx (Zpos p)) 0 false =
          S754_finite sx m (Zpos (digits2_pos p) - 53)) as ->.
  { destruct sx; simpl; exact Hr. }
  rewrite div_by_1024 by (done || lia).
  rewrite div_by_1024 by (done || lia).
  do 2 f_equal. lia.
Qed.

(** Up to [2^53] bytes the memory request is the exact quotient. *)
Lemma mem_request_exact (self : Spawner) :
  Z.abs (mem_limit self) <= 2 ^ 53 ->
  exists f q,
    mem_request self = Return f /\
    float_value f = Some q /\
    (q == mem_limit self # 1048576)%Q.
Proof.
  intros Hz.
  assert (forall sx p, mem_limit self = cond_Zopp sx (Zpos p) ->
            exists f q, mem_request self = Return f /\
              float_value f = Some q /\ (q == mem_limit self # 1048576)%Q) as Hnz.
  { intros sx p Hp.
    assert (Zpos p <= 2 ^ 53) as Hle by (destruct sx; simpl in Hp; lia).
    pose proof (digits2_pos_bounds p) as [Hlo Hhi].
    destruct (Z.eq_dec (Zpos p) (2 ^ 53)) as [Heq|Hne].
    - injection Heq as ->.
      unfold mem_request. rewrite Hp.
      destruct sx; vm_compute; eexists _, _; done.
    - assert (Zpos (digits2_pos p) <= 53) as Hd.
      { destruct (Z.le_gt_cases (Zpos (digits2_pos p)) 53) as [|Hgt]; [done|].
        assert (2 ^ 53 <= 2 ^ (Zpos (digits2_pos p) - 1))
          by (apply Z.pow_le_mono_r; lia).
        lia. }
      destruct (mem_request_finite self sx p Hp Hd) as (m & Hr & Hm).
      eexists _, _. split; [exact Hr|]. split; [done|].
      rewrite Hp.
      apply (exact_quotient _ _ _ (53 - Zpos (digits2_pos p))); [lia| |lia].
      destruct sx; simpl; lia. }
  destruct (mem_limit self) as [|p|p] eqn:Hm.
  - exists (S754_zero false), 0%Q. unfold mem_request. rewrite Hm. done.
  - by apply (Hnz false p).
  - by apply (Hnz true p).
Qed.

Section Request.
Context {W : Type} `{Marathon W}.
Variable self : Spawner.

(** C7, as the code has it: for every memory limit of at most [2^53]
    bytes in magnitude, the [mem] field of the request [start] builds is
    a finite double whose value is exactly the limit divided by
    1,048,576, with no rounding; a limit of 1048576 bytes gives the
    double 1.0 and a limit of 1572864 bytes gives 1.5. *)
Theorem app_request_mem_exact (s : Machine W) req :
  (app_request self s).1 = Return req ->
  Z.abs (mem_limit self) <= 2 ^ 53 ->
  (exists q, float_value (mem req) = Some q /\
             (q == mem_limit self # 1048576)%Q) /\
  (mem_limit self = 1048576 -> mem req = f1_0) /\
  (mem_limit self = 1572864 -> mem req = f1_5).
Proof.
  intros Hreq Hz.
  destruct (app_request self s) as [r s1] eqn:Hrun. simpl in Hreq. subst r.
  pose proof (app_request_mem self s req s1 Hrun) as Hmem.
  repeat split.
  - destruct (mem_request_exact self Hz) as (f & q & Hf & Hq & Heq).
    rewrite Hmem in Hf. injection Hf as <-. by exists q.
  - intros Hm.
    assert (mem_request self = Return f1_0) as Hone
      by (unfold mem_request; rewrite Hm; reflexivity).
    congruence.
  - intros Hm.
    assert (mem_request self = Return f1_5) as Hhalf
      by (unfold mem_request; rewrite Hm; reflexivity).
    congruence.
Qed.

End Request.

(** ** The scripted runs *)

(** C1 on the scripted cluster: three queries raise, the fourth sees one
    healthy task. *)
Lemma start_survives_failed_queries_witness :
  (start alice (boot transient_then_healthy)).1 =
    Return (Some ("10.0.0.7", 31005)).
Proof.
  destruct (start_survives_failed_queries alice (boot transient_then_healthy))
    as [_ Hready].
  erewrite Hready with (k := 3%nat);
    [ reflexivity | reflexivity | reflexivity | vm_compute; lia
    | reflexivity | reflexivity | reflexivity | reflexivity
    | reflexivity | reflexivity | reflexivity ].
Defined.

(** C2 on the scripted cluster: five queries, none of them healthy. *)
Lemma start_times_out_witness :
  (start alice (boot never_healthy)).1 = Return None /\
  count is_poll (calls (start alice (boot never_healthy)).2) = 5%nat /\
  count is_sleep (calls (start alice (boot never_healthy)).2) = 5%nat.
Proof.
  edestruct (start_times_out alice (boot never_healthy)) as [_ Htimeout];
    [ reflexivity | reflexivity | ].
  erewrite Htimeout; [ repeat split; reflexivity | reflexivity ].
Defined.

(** C3 as claimed fails: a [create_app] that returns [False] and one
    that raises end [start] with the same result, the same record of
    calls and the same server record, so the two cannot be told apart. *)
Lemma rejection_and_unreachable_look_the_same :
  let rejected := start alice (boot (refusing (Return ReturnedFalse))) in
  let unreachable := start alice (boot (refusing (Raise MarathonError))) in
  rejected.1 = Return None /\
  unreachable.1 = Return None /\
  calls rejected.2 = calls unreachable.2 /\
  server rejected.2 = server unreachable.2 /\
  ~ (rejected.1 <> unreachable.1).
Proof.
  cbv zeta. repeat split; try reflexivity.
  intros Hdistinct. apply Hdistinct. reflexivity.
Qed.

(** C3 on the scripted cluster: Marathon cannot be reached. *)
Lemma start_submission_failure_witness :
  (start alice (boot (refusing (Raise MarathonError)))).1 = Return None /\
  count is_poll (calls (start alice (boot (refusing (Raise MarathonError)))).2)
    = 0%nat /\
  count is_delete
    (calls (start alice (boot (refusing (Raise MarathonError)))).2) = 0%nat.
Proof.
  erewrite (start_submission_failure alice
              (boot (refusing (Raise MarathonError))));
    [ repeat split; reflexivity
    | reflexivity
    | reflexivity
    | right; eexists; reflexivity ].
Defined.

(** C5 as claimed fails: with no task the failure is Python's
    [AssertionError], and a host that does not resolve lets the
    resolver's own exception through; neither is an error type of the
    spawner. *)
Lemma address_errors_are_not_typed :
  (get_ip_and_port alice (boot (accepting [Return (status 1 [])]))).1
    = Raise AssertionError /\
  (get_ip_and_port alice (boot (accepting [Return (status 1 [])]))).1
    <> Raise (Exception "AmbiguousTaskCount") /\
  (get_ip_and_port alice
     (boot (accepting
        [Return (status 1 [ {| host := "agent-9"; task_ports := [31005] |} ])]))).1
    = Raise gaierror /\
  (get_ip_and_port alice
     (boot (accepting
        [Return (status 1 [ {| host := "agent-9"; task_ports := [31005] |} ])]))).1
    <> Raise (Exception "HostResolutionFailed").
Proof. repeat split; try reflexivity; vm_compute; discriminate. Qed.

(** C5 on the scripted cluster: one task on a host that resolves. *)
Lemma get_ip_and_port_outcomes_witness :
  (get_ip_and_port alice (boot (accepting [Return (status 1 [task1])]))).1
    = Return ("10.0.0.7", 31005).
Proof.
  edestruct (get_ip_and_port_outcomes alice
               (boot (accepting [Return (status 1 [task1])])))
    as (Hone & _ & _); [ reflexivity | ].
  eapply Hone; reflexivity.
Defined.

(** C6 as claimed fails: with a client that reports a missing workload
    as an error, [stop] on a workload that does not exist raises. *)
Lemma stop_raises_on_absent_workload :
  ~ (container_name alice ∈ deployed (accepting [])) /\
  (@stop Cluster strict_marathon alice false (boot (accepting []))).1 =
    Raise NotFoundError.
Proof. split; [ apply not_elem_of_empty | reflexivity ]. Qed.

(** C6 on the scripted cluster, whose [delete_app] removes the name from
    the set of deployed workloads and never raises. *)
Lemma stop_succeeds_exactly_when_delete_does_witness :
  (stop alice false (boot (accepting []))).1 = Return tt /\
  (stop alice false (stop alice false (boot (accepting []))).2).1 =
    Return tt.
Proof.
  destruct (stop_succeeds_exactly_when_delete_does alice false
              (boot (accepting [])))
    as (_ & _ & _ & _ & _ & Htwice).
  destruct Htwice as (Hfirst & Hsecond & _);
    [ eexists; reflexivity | eexists; reflexivity | ].
  split; assumption.
Defined.

(** C8 as claimed fails: the name starts with a slash. *)
Lemma container_name_has_a_leading_slash :
  container_name alice = "/jupyter/alice" /\
  container_name alice <> app_prefix alice +:+ "/" +:+ user_name alice.
Proof. split; [ reflexivity | vm_compute; discriminate ]. Qed.

(** C8 on the scripted cluster. *)
Lemma container_name_keys_every_call_witness :
  calls (poll alice (boot (accepting []))).2 =
    [GetApp "/jupyter/alice" false] /\
  calls (stop alice false (boot (accepting []))).2 =
    [DeleteApp "/jupyter/alice"].
Proof.
  destruct (container_name_keys_every_call (W := Cluster) alice)
    as (_ & _ & Hcalls).
  destruct (Hcalls (boot (accepting []))) as (Hpoll & _ & Hstop & _).
  split; [ exact Hpoll | exact (Hstop false) ].
Defined.

(** C7 as claimed fails: a limit of [2^53 + 1] bytes is rounded to
    [2^53] when it is converted to a double, so the request is [2^33],
    not the exact quotient. *)
Lemma mem_request_rounds_beyond_2_53 :
  exists req q,
    (app_request (with_mem_limit (2 ^ 53 + 1) alice) (boot (accepting []))).1
      = Return req /\
    float_value (mem req) = Some q /\
    (q == 8589934592)%Q /\
    ~ (q == (2 ^ 53 + 1) # 1048576)%Q.
Proof.
  eexists _, _. split; [ reflexivity | ]. split; [ reflexivity | ].
  split; [ reflexivity | ].
  intros Heq. vm_compute in Heq. discriminate.
Qed.

(** C7 on the scripted cluster: a limit of 1572864 bytes. *)
Lemma app_request_mem_exact_witness :
  exists req,
    (app_request alice (boot (accepting []))).1 = Return req /\
    mem req = f1_5.
Proof.
  eexists. split; [ reflexivity | ].
  eapply (app_request_mem_exact alice (boot (accepting [])));
    [ reflexivity | vm_compute; discriminate | reflexivity ].
Defined.

(** C9 fails on the code: [alice] is configured with one placement
    constraint, [get_constraints] returns [None], and the request that
    reaches [create_app] has no constraints. *)
Lemma start_submits_no_constraints :
  marathon_constraints alice = [ ["hostname"; "UNIQUE"] ] /\
  constraint_from_json ["hostname"; "UNIQUE"] =
    Return (Some {| field := "hostname"; operator := "UNIQUE";
                    value := None |}) /\
  get_constraints alice = Return None /\
  exists req rest,
    calls (start alice (boot never_healthy)).2 =
      CreateApp (container_name alice) req :: rest /\
    constraints req = None.
Proof.
  repeat split; try reflexivity.
  eexists _, _. split; [ vm_compute; reflexivity | reflexivity ].
Qed.

(** * Further properties of the methods *)

(** ** The builders of the request *)

Lemma fold_left_append_map {A B} (g : A -> B) (xs : list A) (acc : list B) :
  fold_left (fun acc x => acc ++ [g x]) xs acc = acc ++ map g xs.
Proof.
  revert acc. induction xs as [|x xs IH]; intros acc; simpl.
  - by rewrite app_nil_r.
  - by rewrite IH, <- app_assoc.
Qed.

Lemma append_each_return {A B} (f : A -> result B) xs acc ys :
  append_each f xs acc = Return ys <->
  exists zs, ys = acc ++ zs /\ Forall2 (fun x z => f x = Return z) xs zs.
Proof.
  revert acc. induction xs as [|x xs IH]; intros acc; simpl.
  - split.
    + intros [= <-]. exists []. by rewrite app_nil_r.
    + intros (zs & -> & Hzs). apply Forall2_nil_inv_l in Hzs as ->.
      by rewrite app_nil_r.
  - destruct (f x) as [y|e] eqn:Hx.
    + rewrite IH. split.
      * intros (zs & -> & Hzs). exists (y :: zs).
        split; [by rewrite <- app_assoc|]. by constructor.
      * intros (zs & -> & Hzs).
        apply Forall2_cons_inv_l in Hzs as (z & zs' & Hz & Hzs & ->).
        exists zs'. split; [|done].
        rewrite Hx in Hz. injection Hz as ->. by rewrite <- app_assoc.
    + split; [done|].
      intros (zs & _ & Hzs).
      apply Forall2_cons_inv_l in Hzs as (z & zs' & Hz & _ & _). congruence.
Qed.

Lemma append_each_raise {A B} (f : A -> result B) xs acc e :
  append_each f xs acc = Raise e <->
  exists before x after,
    xs = before ++ x :: after /\
    Forall (fun x => returns (f x)) before /\
    f x = Raise e.
Proof.
  revert acc. induction xs as [|x xs IH]; intros acc; simpl.
  - split; [done|]. intros (before & x & after & Hxs & _).
    by destruct before.
  - destruct (f x) as [y|e'] eqn:Hx.
    + rewrite IH. split.
      * intros (before & x' & after & -> & Hb & Hx').
        exists (x :: before), x', after. split; [done|]. split; [|done].
        constructor; [by exists y|done].
      * intros (before & x' & after & Hxs & Hb & Hx').
        destruct before as [|b before]; simpl in Hxs.
        { injection Hxs as -> _. congruence. }
        injection Hxs as -> ->. inversion Hb; subst.
        by exists before, x', after.
    + split.
      * intros [= ->]. exists [], x, xs. by repeat split.
      * intros (before & x' & after & Hxs & Hb & Hx').
        destruct before as [|b before]; simpl in Hxs.
        { injection Hxs as -> _. congruence. }
        injection Hxs as -> _. inversion Hb as [|? ? [y Hy] ?]; subst.
        congruence.
Qed.

Section Builders.
Context {W : Type} `{Marathon W}.
Variable self : Spawner.

(** X1: [get_port_mappings] yields one mapping per configured port, in
    the configured order; each maps the container port to host port 0
    (Marathon picks the host port) over tcp. *)
Theorem get_port_mappings_one_per_port :
  get_port_mappings self =
    map (fun p => {| container_port := p; host_port := 0;
                     mapping_protocol := "tcp" |}) (ports self) /\
  length (get_port_mappings self) = length (ports self) /\
  forall i m, get_port_mappings self !! i = Some m ->
    ports self !! i = Some (container_port m) /\ host_port m = 0.
Proof.
  assert (get_port_mappings self =
    map (fun p => {| container_port := p; host_port := 0;
                     mapping_protocol := "tcp" |}) (ports self)) as Hmap.
  { unfold get_port_mappings.
    by rewrite (fold_left_append_map
      (fun p => {| container_port := p; host_port := 0;
                   mapping_protocol := "tcp" |})). }
  split; [done|]. rewrite Hmap. split; [by rewrite length_map|].
  intros i m Hi. rewrite list_lookup_fmap in Hi.
  destruct (ports self !! i) as [p|]; simpl in Hi; [|done].
  by injection Hi as <-.
Qed.

(** X2: [get_volumes] returns the converted volumes, one per configured
    volume and in order, exactly when every [from_json] succeeds;
    otherwise it raises the exception of the first volume that fails. *)
Theorem get_volumes_all_or_first_error :
  (forall vs, get_volumes self = Return vs <->
     Forall2 (fun v r => volume_from_json v = Return r) (volumes self) vs) /\
  (forall e, get_volumes self = Raise e <->
     exists before v after,
       volumes self = before ++ v :: after /\
       Forall (fun v => returns (volume_from_json v)) before /\
       volume_from_json v = Raise e).
Proof.
  split.
  - intros vs. unfold get_volumes. rewrite append_each_return. split.
    + by intros (zs & -> & Hzs).
    + intros Hvs. by exists vs.
  - intros e. unfold get_volumes. by rewrite append_each_raise.
Qed.

(** X3: [get_constraints] still converts every configured constraint:
    it returns (always [None]) exactly when all conversions succeed and
    raises the exception of the first constraint that fails. *)
Theorem get_constraints_checks_then_drops :
  (forall r, get_constraints self = Return r <->
     r = None /\
     Forall (fun c => returns (constraint_from_json c))
       (marathon_constraints self)) /\
  (forall e, get_constraints self = Raise e <->
     exists before c after,
       marathon_constraints self = before ++ c :: after /\
       Forall (fun c => returns (constraint_from_json c)) before /\
       constraint_from_json c = Raise e).
Proof.
  unfold get_constraints. split.
  - intros r.
    destruct (append_each constraint_from_json (marathon_constraints self) [])
      as [cs|e] eqn:Hrun.
    + apply append_each_return in Hrun as (zs & _ & Hzs). split.
      * intros [= <-]. split; [done|].
        clear -Hzs. induction Hzs; constructor; [by eexists|done].
      * by intros [-> _].
    + split; [done|]. intros [_ Hall].
      apply append_each_raise in Hrun
        as (before & c & after & Hcs & _ & Hc).
      rewrite Hcs in Hall. apply Forall_app in Hall as [_ Hall].
      inversion Hall as [|? ? [r' Hr'] ?]; subst. congruence.
  - intros e.
    rewrite <- (append_each_raise constraint_from_json
                  (marathon_constraints self) [] e).
    destruct (append_each constraint_from_json _ []);
      [split; intros; discriminate|split; intros; congruence].
Qed.

End Builders.

(** ** Splitting the hub's URL *)

Lemma str_append_cons (c : Ascii.ascii) (s t : string) :
  String c s +:+ t = String c (s +:+ t).
Proof. reflexivity. Qed.

Lemma str_append_nil_l (t : string) : "" +:+ t = t.
Proof. reflexivity. Qed.

Lemma str_append_assoc (s t u : string) : (s +:+ t) +:+ u = s +:+ t +:+ u.
Proof.
  induction s as [|c s IH]; [done|]. by rewrite !str_append_cons, IH.
Qed.

Lemma str_substring_all (s : string) : String.substring 0 (String.length s) s = s.
Proof. induction s as [|c s IH]; simpl; [done|]. by rewrite IH. Qed.

(** A text that starts with [sep] is [sep] followed by what [split_once]
    keeps as the second part. *)
Lemma prefix_split (sep s : string) :
  String.prefix sep s = true ->
  s = sep +:+
      String.substring (String.length sep)
        (String.length s - String.length sep) s.
Proof.
  revert s. induction sep as [|c sep IH]; intros s Hp.
  - rewrite str_append_nil_l. simpl. by rewrite Nat.sub_0_r, str_substring_all.
  - destruct s as [|d s]; simpl in Hp; [done|].
    destruct (Ascii.ascii_dec c d) as [->|]; [|done].
    rewrite str_append_cons. simpl. by rewrite <- (IH s Hp).
Qed.

Lemma prefix_append (sep t : string) : String.prefix sep (sep +:+ t) = true.
Proof.
  induction sep as [|c sep IH]; [by destruct t|].
  rewrite str_append_cons. simpl.
  by destruct (Ascii.ascii_dec c c).
Qed.

Lemma prefix_length (sep s : string) :
  String.prefix sep s = true -> (String.length sep <= String.length s)%nat.
Proof.
  revert s. induction sep as [|c sep IH]; intros s Hp; simpl; [lia|].
  destruct s as [|d s]; simpl in *; [done|].
  destruct (Ascii.ascii_dec c d); [|done]. apply IH in Hp. lia.
Qed.

Lemma str_substring_append (n : nat) (t u : string) :
  (n <= String.length t)%nat ->
  String.substring n (String.length (t +:+ u) - n) (t +:+ u) =
    String.substring n (String.length t - n) t +:+ u.
Proof.
  revert t. induction n as [|n IH]; intros t Hn.
  - by rewrite !Nat.sub_0_r, !str_substring_all.
  - destruct t as [|c t]; simpl in Hn; [lia|].
    rewrite str_append_cons. simpl. apply IH. lia.
Qed.

Lemma str_length_append (t u : string) :
  String.length (t +:+ u) = (String.length t + String.length u)%nat.
Proof. induction t as [|c t IH]; [done|]. rewrite str_append_cons. simpl. lia. Qed.

Lemma split_once_unfold (sep s : string) :
  split_once sep s =
    if String.prefix sep s
    then Some (EmptyString, String.substring (String.length sep)
                              (String.length s - String.length sep)%nat s)
    else match s with
         | EmptyString => None
         | String c s' =>
             match split_once sep s' with
             | Some (a, b) => Some (String c a, b)
             | None => None
             end
         end.
Proof. by destruct s. Qed.

(** What [split_once] returns puts the text back together. *)
Lemma split_once_sound (sep s a b : string) :
  split_once sep s = Some (a, b) -> s = a +:+ sep +:+ b.
Proof.
  revert a. induction s as [|c s IH]; intros a; rewrite split_once_unfold.
  - destruct (String.prefix sep "") eqn:Hp; [|done].
    intros [= <- <-]. by apply prefix_split.
  - destruct (String.prefix sep (String c s)) eqn:Hp.
    + intros [= <- <-]. by apply prefix_split.
    + destruct (split_once sep s) as [[a0 b0]|]; [|done].
      intros [= <- <-]. rewrite str_append_cons. f_equal. by apply IH.
Qed.

(** Where [sep] occurs, [split_once] finds it, and what it returns as
    the second part ends with whatever follows any occurrence. *)
Lemma split_once_complete (sep before after : string) :
  exists a b c,
    split_once sep (before +:+ sep +:+ after) = Some (a, b) /\
    b = c +:+ after.
Proof.
  induction before as [|d before IH].
  - rewrite str_append_nil_l, split_once_unfold, prefix_append.
    exists "", (String.substring (String.length sep)
                  (String.length (sep +:+ after) - String.length sep)
                  (sep +:+ after)), "".
    split; [done|]. rewrite str_append_nil_l.
    pose proof (prefix_split sep (sep +:+ after) (prefix_append sep after))
      as Heq.
    by apply String.app_inj in Heq.
  - rewrite str_append_cons, split_once_unfold.
    destruct (String.prefix sep (String d (before +:+ sep +:+ after))) eqn:Hp.
    + eexists "", _, _. split; [done|].
      rewrite <- str_append_cons, <- str_append_assoc.
      apply str_substring_append.
      rewrite str_length_append. lia.
    + destruct IH as (a & b & c & -> & ->).
      by exists (String d a), (c +:+ after), c.
Qed.

Lemma prefix_extend (sep t u : string) :
  String.prefix sep t = true -> String.prefix sep (t +:+ u) = true.
Proof.
  intros Hp. rewrite (prefix_split sep t Hp), str_append_assoc.
  apply prefix_append.
Qed.

(** The first part [split_once] returns holds no occurrence of a
    non-empty [sep]: the split is at the first one. *)
Lemma split_once_first (sep s a b : string) :
  sep <> "" -> split_once sep s = Some (a, b) -> split_once sep a = None.
Proof.
  intros Hsep. assert (String.prefix sep "" = false) as Hnil.
  { destruct sep; [done|reflexivity]. }
  revert a. induction s as [|c s IH]; intros a; rewrite split_once_unfold.
  - rewrite Hnil. done.
  - destruct (String.prefix sep (String c s)) eqn:Hp.
    + intros [= <- <-]. rewrite split_once_unfold. by rewrite Hnil.
    + destruct (split_once sep s) as [[a0 b0]|] eqn:Hs; [|done].
      intros [= <- <-]. rewrite split_once_unfold.
      destruct (String.prefix sep (String c a0)) eqn:Hp'.
      * apply (prefix_extend _ _ (sep +:+ b0)) in Hp'.
        rewrite str_append_cons, <- (split_once_sound _ _ _ _ Hs) in Hp'.
        congruence.
      * by rewrite (IH a0).
Qed.

Lemma split_once_none (sep s : string) :
  split_once sep s = None -> ~ occurs sep s.
Proof.
  intros Hnone (before & after & ->).
  destruct (split_once_complete sep before after) as (a & b & c & Hs & _).
  congruence.
Qed.

Section Environment.
Context {W : Type} `{Marathon W}.
Variable self : Spawner.

(** X4: when [_public_hub_api_url] returns, the hub's URL has the shape
    [proto://host:rest], with no ["://"] in [proto] and no colon in
    [host], and the result is the same URL with [host] replaced by
    [hub_ip_connect]. *)
Theorem public_hub_api_url_replaces_host (u : string) :
  _public_hub_api_url self = Return u ->
  exists proto host rest,
    hub_api_url self = proto +:+ "://" +:+ host +:+ ":" +:+ rest /\
    u = proto +:+ "://" +:+ hub_ip_connect self +:+ ":" +:+ rest /\
    ~ occurs "://" proto /\
    ~ occurs ":" host.
Proof.
  unfold _public_hub_api_url.
  destruct (split_once "://" (hub_api_url self)) as [[proto path]|] eqn:H1;
    [|done].
  destruct (split_once ":" path) as [[host rest]|] eqn:H2; [|done].
  intros [= <-]. exists proto, host, rest.
  apply split_once_sound in H1 as Hurl. apply split_once_sound in H2 as Hpath.
  split; [by rewrite Hurl, Hpath|]. split; [done|].
  split; apply split_once_none.
  - by apply (split_once_first "://" _ _ _ ltac:(done) H1).
  - by apply (split_once_first ":" _ _ _ ltac:(done) H2).
Qed.

(** [_public_hub_api_url] returns exactly on URLs of the shape
    [proto://host:rest]. *)
Lemma hub_url_returns_iff :
  returns (_public_hub_api_url self) <->
  exists proto host rest,
    hub_api_url self = proto +:+ "://" +:+ host +:+ ":" +:+ rest.
Proof.
  split.
  - intros [u Hu]. unfold _public_hub_api_url in Hu.
    destruct (split_once "://" (hub_api_url self)) as [[proto path]|] eqn:H1;
      [|done].
    destruct (split_once ":" path) as [[host rest]|] eqn:H2; [|done].
    apply split_once_sound in H1. apply split_once_sound in H2.
    exists proto, host, rest. by rewrite H1, H2.
  - intros (proto & host & rest & Hurl).
    unfold _public_hub_api_url. rewrite Hurl.
    destruct (split_once_complete "://" proto (host +:+ ":" +:+ rest))
      as (a & b & c & -> & ->).
    rewrite <- str_append_assoc.
    destruct (split_once_complete ":" (c +:+ host) rest)
      as (a' & b' & c' & -> & _).
    by eexists.
Qed.

Lemma hub_url_raises_value_error (e : exn) :
  _public_hub_api_url self = Raise e -> e = ValueError.
Proof.
  unfold _public_hub_api_url.
  destruct (split_once "://" (hub_api_url self)) as [[proto path]|];
    [|by intros [= <-]].
  destruct (split_once ":" path) as [[host rest]|]; [done|by intros [= <-]].
Qed.

(** X5: [_public_hub_api_url] returns exactly when the hub's URL contains
    ["://"] followed, somewhere later, by a colon; otherwise it raises
    [ValueError], and it raises nothing else. *)
Theorem public_hub_api_url_needs_scheme_and_port :
  (returns (_public_hub_api_url self) <->
     exists proto host rest,
       hub_api_url self = proto +:+ "://" +:+ host +:+ ":" +:+ rest) /\
  (forall e, _public_hub_api_url self = Raise e -> e = ValueError).
Proof.
  split; [exact hub_url_returns_iff|exact hub_url_raises_value_error].
Qed.

(** X6: the environment [get_env] returns holds the user's name, the
    server's cookie name and base URL, the hub's prefix and the hub's
    API URL (rewritten to the public address when [hub_ip_connect] is
    set); [NOTEBOOK_DIR] is set only for a non-empty [notebook_dir]; and
    every other inherited variable is passed on unchanged. *)
Theorem get_env_variables (s : Machine W) (env : gmap string string) :
  (get_env self s).1 = Return env ->
  env !! "JPY_USER" = Some (user_name self) /\
  env !! "JPY_COOKIE_NAME" = Some (cookie_name (server s)) /\
  env !! "JPY_BASE_URL" = Some (base_url (server s)) /\
  env !! "JPY_HUB_PREFIX" = Some (hub_server_base_url self) /\
  env !! "NOTEBOOK_DIR" =
    (if truthy (notebook_dir self) then Some (notebook_dir self)
     else inherited_env self !! "NOTEBOOK_DIR") /\
  (exists url,
     env !! "JPY_HUB_API_URL" = Some url /\
     if truthy (hub_ip_connect self)
     then _public_hub_api_url self = Return url
     else url = hub_api_url self) /\
  (forall k, k ∉ spawner_variables -> env !! k = inherited_env self !! k).
Proof.
  unfold get_env, bind, get_server, lift, ret. simpl.
  destruct (truthy (hub_ip_connect self));
    [destruct (_public_hub_api_url self) as [url|e] eqn:Hurl; simpl; [|done]
    |simpl];
    intros [= <-];
    destruct (truthy (notebook_dir self));
    (repeat split;
     [ by simplify_map_eq | by simplify_map_eq | by simplify_map_eq
     | by simplify_map_eq | by simplify_map_eq
     | eexists; split; [by simplify_map_eq|done]
     | intros k Hk; unfold spawner_variables in Hk;
       rewrite !not_elem_of_cons in Hk;
       destruct Hk as (? & ? & ? & ? & ? & ? & _);
       by simplify_map_eq ]).
Qed.

End Environment.

(** ** The shape of a launch *)

Section Shape.
Context {W : Type} `{Marathon W}.
Variable self : Spawner.

Local Abbreviation name := (container_name self).

Lemma poll_signal_none (reply : result AppStatus) :
  poll_signal reply = None ->
  exists app, reply = Return app /\ tasks_healthy app = Some 1.
Proof.
  destruct reply as [app|e]; simpl; [|done].
  destruct (bool_decide (tasks_healthy app = Some 1)) eqn:Hb; [|done].
  apply bool_decide_eq_true_1 in Hb. by exists app.
Qed.

(** A run of the loop either uses up its [n] iterations on idle rounds,
    or sees a healthy workload after [k < n] idle rounds and ends with
    address discovery. *)
Lemma start_loop_cases (n : nat) (s : Machine W) :
  (exists wn,
     after_polls not_ready name n (world s) = Some wn /\
     start_loop self n s = (Return None, answered s wn (idle_rounds name n)))
  \/
  (exists k wk app w1,
     (k < n)%nat /\
     after_polls not_ready name k (world s) = Some wk /\
     get_app name false wk = (Return app, w1) /\
     tasks_healthy app = Some 1 /\
     start_loop self n s =
       finish (get_ip_and_port self
                 (answered s w1 (idle_rounds name k ++ [GetApp name false])))).
Proof.
  revert s. induction n as [|n IH]; intros s.
  - left. exists (world s). split; [done|]. simpl.
    by rewrite answered_nil.
  - rewrite start_loop_step. simpl.
    destruct (get_app name false (world s)) as [reply w'] eqn:Hq. simpl.
    destruct (poll_signal reply) as [text|] eqn:Hp.
    + assert (not_ready reply = true) as Hn by (unfold not_ready; by rewrite Hp).
      destruct (IH (answered s (sleep 1 w') [GetApp name false; Sleep 1]))
        as [(wn & Hidle & Hrun)|(k & wk & app & w1 & Hk & Hidle & Hq' & Hh & Hrun)].
      * left. exists wn. rewrite Hn. split; [done|].
        by rewrite Hrun, answered_answered.
      * right. exists (S k), wk, app, w1. simpl. rewrite Hq, Hn.
        split; [lia|]. do 3 (split; [done|]).
        by rewrite Hrun, answered_answered.
    + right. apply poll_signal_none in Hp as (app & -> & Hh).
      exists 0%nat, (world s), app, w'.
      split; [lia|]. do 3 (split; [done|]).
      simpl. unfold finish.
      by destruct (get_ip_and_port self _) as [[[address p]|e] s2].
Qed.


(** A discovery that returns went through all its steps. *)
Lemma get_ip_and_port_returns (s : Machine W) address p s2 :
  get_ip_and_port self s = (Return (address, p), s2) ->
  exists found w2 task w3 ps,
    get_app name true (world s) = (Return found, w2) /\
    tasks found = [task] /\
    gethostbyname (host task) w2 = (Return address, w3) /\
    task_ports task = p :: ps /\
    s2 = answered s w3 [GetApp name true; GetHostByName (host task)].
Proof.
  rewrite get_ip_and_port_run.
  destruct (get_app name true (world s)) as [[found|e] w2] eqn:Hq; [|done].
  destruct (tasks found) as [|task [|task' ts]] eqn:Ht; try done.
  destruct (gethostbyname (host task) w2) as [[a|e] w3] eqn:Hr; [|done].
  destruct (task_ports task) as [|p' ps] eqn:Hp; [done|].
  intros [= <- <- <-]. by exists found, w2, task, w3, ps.
Qed.

(** The calls address discovery adds. *)
Lemma get_ip_and_port_tail (s : Machine W) :
  (calls (get_ip_and_port self s).2 = calls s ++ [GetApp name true] /\
   exists e, (get_ip_and_port self s).1 = Raise e) \/
  (exists hostname,
     calls (get_ip_and_port self s).2 =
       calls s ++ [GetApp name true; GetHostByName hostname]).
Proof.
  rewrite get_ip_and_port_run.
  destruct (get_app name true (world s)) as [[found|e] w2];
    [|left; split; [done|by exists e]].
  destruct (tasks found) as [|task [|task' ts]];
    [left; split; [done|by eexists]| |left; split; [done|by eexists]].
  right. exists (host task).
  by destruct (gethostbyname (host task) w2) as [[a|e] w3].
Qed.

Lemma finish_calls (r : result (string * Z) * Machine W) :
  calls (finish r).2 = calls r.2.
Proof. by destruct r as [[[a p]|e] s2]. Qed.

Lemma finish_none (r : result (string * Z) * Machine W) :
  (finish r).1 <> Return None.
Proof. by destruct r as [[[a p]|e] s2]. Qed.

Lemma idle_rounds_no_delete k :
  Forall (fun c => is_delete c = false) (idle_rounds name k).
Proof. induction k; simpl; repeat constructor; done. Qed.

(** X7: when a step of building the request raises (a [from_json]
    conversion, the conversion of the memory limit to a double, the
    split of the hub's URL in [get_env]), [start] raises that exception
    and nothing has left the process: no call was made and the machine
    is as it was. *)
Theorem start_fails_before_submission (s : Machine W) e :
  (app_request self s).1 = Raise e ->
  start self s = (Raise e, s).
Proof.
  intros Hreq. unfold start, bind.
  pose proof (app_request_state self s) as Hs.
  destruct (app_request self s) as [r s1]. simpl in *. by subst.
Qed.

(** X8: the outside calls of a [start] whose request was built follow
    one pattern: the [create_app], then at most [start_timeout] rounds
    of a status query and a one-second pause, then either nothing more
    (exactly when [start] returns [None]) or a status query followed by
    the discovery query and possibly a name lookup.  [delete_app] is
    never called, so a launch that is refused, times out or fails leaves
    whatever was created in place. *)
Theorem start_call_protocol (s : Machine W) req :
  (app_request self s).1 = Return req ->
  exists k tail,
    calls (start self s).2 =
      calls s ++ CreateApp name req :: idle_rounds name k ++ tail /\
    (k <= Z.to_nat (start_timeout self))%nat /\
    loop_tail name tail /\
    (tail = [] <-> (start self s).1 = Return None) /\
    Forall (fun c => is_delete c = false)
      (CreateApp name req :: idle_rounds name k ++ tail).
Proof.
  intros Hreq. rewrite (start_run self s req Hreq).
  assert (forall k tail, loop_tail name tail ->
            Forall (fun c => is_delete c = false)
              (CreateApp name req :: idle_rounds name k ++ tail)) as Hnodel.
  { intros k tail Htail. constructor; [done|]. apply Forall_app. split.
    - apply idle_rounds_no_delete.
    - destruct Htail; repeat constructor. }
  assert (forall w0, exists k tail,
    calls (answered s w0 [CreateApp name req]) =
      calls s ++ CreateApp name req :: idle_rounds name k ++ tail /\
    (k <= Z.to_nat (start_timeout self))%nat /\
    loop_tail name tail /\
    (tail = [] <-> @Return (option (string * Z)) None = Return None) /\
    Forall (fun c => is_delete c = false)
      (CreateApp name req :: idle_rounds name k ++ tail)) as Hrefused.
  { intros w0. exists 0%nat, []. simpl.
    split; [done|]. split; [lia|]. split; [constructor|]. split; [done|].
    by repeat constructor. }
  destruct (create_app name req (world s)) as [[[created|]|e] w0];
    [|apply Hrefused|apply Hrefused].
  destruct (start_loop_cases (Z.to_nat (start_timeout self))
              (answered s w0 [CreateApp name req]))
    as [(wn & _ & ->)|(k & wk & app & w1 & Hk & _ & _ & _ & ->)].
  - exists (Z.to_nat (start_timeout self)), []. simpl.
    rewrite app_nil_r, <- app_assoc.
    split; [done|]. split; [lia|]. split; [constructor|]. split; [done|].
    specialize (Hnodel (Z.to_nat (start_timeout self)) [] (tail_exhausted _)).
    by rewrite app_nil_r in Hnodel.
  - rewrite finish_calls.
    match goal with |- context [get_ip_and_port self ?s1] =>
      pose proof (finish_none (get_ip_and_port self s1)) as Hnone;
      destruct (get_ip_and_port_tail s1) as [[Hc _]|[hostname Hc]]
    end.
    + exists k, [GetApp name false; GetApp name true].
      split; [rewrite Hc; simpl; by rewrite <- !app_assoc|].
      split; [lia|]. split; [constructor|]. split; [done|].
      apply Hnodel. constructor.
    + exists k, [GetApp name false; GetApp name true; GetHostByName hostname].
      split; [rewrite Hc; simpl; by rewrite <- !app_assoc|].
      split; [lia|]. split; [constructor|]. split; [done|].
      apply Hnodel. constructor.
Qed.

(** X9: with a [start_timeout] of zero or less, [start] submits the
    request and returns [None] at once, whatever Marathon answered:
    the status is never queried. *)
Theorem start_without_time_to_start (s : Machine W) req :
  start_timeout self <= 0 ->
  (app_request self s).1 = Return req ->
  start self s =
    (Return None,
     answered s (create_app name req (world s)).2 [CreateApp name req]).
Proof.
  intros Hzero Hreq. rewrite (start_run self s req Hreq).
  replace (Z.to_nat (start_timeout self)) with 0%nat by lia.
  by destruct (create_app name req (world s)) as [[[created|]|e] w0].
Qed.

(** X10: an endpoint returned by [start] always has this origin: the
    request was accepted, fewer than [start_timeout] status queries
    were not ready, the next one reported one healthy task, the
    discovery query then listed exactly one task, the address is what
    that task's host resolved to and the port is the task's first
    port. *)
Theorem start_endpoint_origin (s : Machine W) address p :
  (start self s).1 = Return (Some (address, p)) ->
  exists req created w0 k wk app w1 found w2 task w3 ps,
    (app_request self s).1 = Return req /\
    create_app name req (world s) = (Return (Created created), w0) /\
    (k < Z.to_nat (start_timeout self))%nat /\
    after_polls not_ready name k w0 = Some wk /\
    get_app name false wk = (Return app, w1) /\
    tasks_healthy app = Some 1 /\
    get_app name true w1 = (Return found, w2) /\
    tasks found = [task] /\
    gethostbyname (host task) w2 = (Return address, w3) /\
    task_ports task = p :: ps.
Proof.
  intros Hrun.
  destruct (app_request self s) as [[req|e] s1] eqn:Hreq.
  2: { unfold start, bind in Hrun. by rewrite Hreq in Hrun. }
  rewrite (start_run self s req) in Hrun by (by rewrite Hreq).
  destruct (create_app name req (world s)) as [[[created|]|e] w0] eqn:Hc;
    try done.
  destruct (start_loop_cases (Z.to_nat (start_timeout self))
              (answered s w0 [CreateApp name req]))
    as [(wn & _ & Hloop)|(k & wk & app & w1 & Hk & Hidle & Hq & Hh & Hloop)];
    rewrite Hloop in Hrun; [done|].
  match type of Hrun with context [get_ip_and_port self ?s1] =>
    destruct (get_ip_and_port self s1) as [[[a' p']|e] s2] eqn:Hd
  end; [|done].
  simpl in Hrun. injection Hrun as -> ->.
  apply get_ip_and_port_returns
    in Hd as (found & w2 & task & w3 & ps & Hq' & Ht & Hr & Hp & _).
  exists req, created, w0, k, wk, app, w1, found, w2, task, w3, ps.
  by repeat split.
Qed.

(** X11: once the request is built, an exception comes out of [start]
    only from address discovery after a status query that reported one
    healthy task; failures of [create_app] and of status queries never
    escape. *)
Theorem start_raise_origin (s : Machine W) req e :
  (app_request self s).1 = Return req ->
  (start self s).1 = Raise e ->
  exists created w0 k wk app w1,
    create_app name req (world s) = (Return (Created created), w0) /\
    (k < Z.to_nat (start_timeout self))%nat /\
    after_polls not_ready name k w0 = Some wk /\
    get_app name false wk = (Return app, w1) /\
    tasks_healthy app = Some 1 /\
    (get_ip_and_port self
       (answered s w1
          (CreateApp name req :: idle_rounds name k ++ [GetApp name false]))).1
      = Raise e.
Proof.
  intros Hreq Hrun. rewrite (start_run self s req Hreq) in Hrun.
  destruct (create_app name req (world s)) as [[[created|]|e'] w0] eqn:Hc;
    try done.
  destruct (start_loop_cases (Z.to_nat (start_timeout self))
              (answered s w0 [CreateApp name req]))
    as [(wn & _ & Hloop)|(k & wk & app & w1 & Hk & Hidle & Hq & Hh & Hloop)];
    rewrite Hloop in Hrun; [done|].
  exists created, w0, k, wk, app, w1. do 5 (split; [done|]).
  rewrite answered_answered in Hrun. simpl in Hrun.
  destruct (get_ip_and_port self _) as [[[a' p']|e''] s2]; [done|].
  simpl in *. congruence.
Qed.

End Shape.

Section Rest.
Context {W : Type} `{Marathon W}.
Variable self : Spawner.

Local Abbreviation name := (container_name self).

(** The request depends on the machine through two fields of the server
    record only. *)
Lemma get_env_depends (s1 s2 : Machine W) :
  cookie_name (server s1) = cookie_name (server s2) ->
  base_url (server s1) = base_url (server s2) ->
  (get_env self s1).1 = (get_env self s2).1.
Proof.
  intros Hc Hb. unfold get_env, bind, get_server, lift, ret. simpl.
  rewrite Hc, Hb.
  destruct (truthy (hub_ip_connect self)); [|done].
  by destruct (_public_hub_api_url self).
Qed.

Lemma app_request_depends (s1 s2 : Machine W) :
  cookie_name (server s1) = cookie_name (server s2) ->
  base_url (server s1) = base_url (server s2) ->
  (app_request self s1).1 = (app_request self s2).1.
Proof.
  intros Hc Hb. unfold app_request, bind, lift, ret.
  destruct (get_volumes self); [|done].
  destruct (mem_request self); [|done].
  pose proof (get_env_depends s1 s2 Hc Hb) as He.
  destruct (get_env self s1) as [[env1|e1] t1],
           (get_env self s2) as [[env2|e2] t2]; simpl in He; try done.
  - injection He as ->. by destruct (get_constraints self).
  - by injection He as ->.
Qed.

Lemma start_server_after (s : Machine W) :
  server (start self s).2 = server_after (server s) (start self s).1.
Proof.
  destruct (app_request self s) as [[req|e] s1] eqn:Hreq.
  - rewrite (start_run self s req) by (by rewrite Hreq).
    destruct (create_app name req (world s)) as [[[a|]|e] w0]; try done.
    by rewrite start_loop_server.
  - unfold start, bind. rewrite Hreq. simpl.
    pose proof (app_request_state self s) as Hs. rewrite Hreq in Hs.
    simpl in Hs. by subst s1.
Qed.

(** X12: the request does not depend on what [start] changes: built
    again on the machine a [start] leaves behind, whatever its outcome,
    it is the request that was built before. *)
Theorem relaunch_builds_the_same_request (s : Machine W) :
  (app_request self (start self s).2).1 = (app_request self s).1.
Proof.
  apply app_request_depends; rewrite start_server_after;
    by destruct (start self s).1 as [[[address p]|]|e].
Qed.

(** X13: [get_env] never changes the machine; without [hub_ip_connect] it
    always returns; and when it raises, the exception is [ValueError],
    [hub_ip_connect] is set and the hub's URL is not of the shape
    [proto://host:rest]. *)
Theorem get_env_fails_only_on_a_malformed_hub_url (s : Machine W) :
  (get_env self s).2 = s /\
  (hub_ip_connect self = "" -> returns (get_env self s).1) /\
  (forall e,
     (get_env self s).1 = Raise e ->
     e = ValueError /\
     hub_ip_connect self <> "" /\
     ~ exists proto host rest,
         hub_api_url self = proto +:+ "://" +:+ host +:+ ":" +:+ rest).
Proof.
  split; [apply get_env_state|].
  unfold get_env, bind, get_server, lift, ret. simpl. split.
  - intros ->. simpl. by eexists.
  - intros e. destruct (hub_ip_connect self) as [|c ip] eqn:Hip; [done|].
    simpl.
    destruct (_public_hub_api_url self) as [url|e'] eqn:Hurl; [done|].
    simpl. intros [= ->].
    split; [by apply (hub_url_raises_value_error self)|]. split; [done|].
    intros Hshape. apply (hub_url_returns_iff self) in Hshape as [u Hu].
    congruence.
Qed.

(** X14: [get_ip_and_port] raises [e] in exactly four situations: the
    query raised [e]; the number of tasks is not one and [e] is
    [AssertionError]; the single task's host lookup raised [e]; or the
    lookup returned, the task has no port and [e] is [IndexError]. *)
Theorem get_ip_and_port_failures (s : Machine W) (e : exn) :
  (get_ip_and_port self s).1 = Raise e <->
  (exists w1, get_app name true (world s) = (Raise e, w1)) \/
  (exists found w1,
     get_app name true (world s) = (Return found, w1) /\
     ((length (tasks found) <> 1%nat /\ e = AssertionError) \/
      (exists task w2,
         tasks found = [task] /\
         gethostbyname (host task) w1 = (Raise e, w2)) \/
      (exists task address w2,
         tasks found = [task] /\
         gethostbyname (host task) w1 = (Return address, w2) /\
         task_ports task = [] /\ e = IndexError))).
Proof.
  rewrite get_ip_and_port_run. split.
  - destruct (get_app name true (world s)) as [[found|e0] w1] eqn:Hq.
    2: { intros [= <-]. left. by exists w1. }
    intros Hrun. right. exists found, w1. split; [done|].
    destruct (tasks found) as [|task [|task' ts]] eqn:Ht.
    + injection Hrun as <-. left. by split.
    + destruct (gethostbyname (host task) w1) as [[address|e1] w2] eqn:Hr.
      * destruct (task_ports task) as [|p ps] eqn:Hp; [|done].
        injection Hrun as <-. right. right. by exists task, address, w2.
      * injection Hrun as <-. right. left. by exists task, w2.
    + injection Hrun as <-. left. by split.
  - intros [[w1 ->]|(found & w1 & -> & Hcase)]; [done|].
    destruct Hcase
      as [[Hlen ->]|[(task & w2 & -> & ->)
                    |(task & address & w2 & -> & -> & -> & ->)]];
      [|done|done].
    by destruct (tasks found) as [|task [|task' ts]].
Qed.

(** X15: [stop] has no handler: when [delete_app] raises, the same
    exception comes out of [stop]; when it returns, [stop] returns; and
    the [now] flag makes no difference. *)
Theorem stop_raises_what_delete_app_raises (now : bool) (s : Machine W) :
  (forall e w', delete_app name (world s) = (Raise e, w') ->
     stop self now s = (Raise e, answered s w' [DeleteApp name])) /\
  (forall r w', delete_app name (world s) = (Return r, w') ->
     stop self now s = (Return tt, answered s w' [DeleteApp name])) /\
  stop self now s = stop self (negb now) s.
Proof.
  rewrite !stop_run. repeat split.
  - by intros e w' ->.
  - by intros r w' ->.
Qed.

(** X16: [get_state] stores the workload's name under ["container_name"],
    over anything the inherited state held there, and keeps every other
    entry; [load_state] returns without changing anything, whatever
    state it is given. *)
Theorem get_state_saves_the_name (saved : gmap string string) :
  get_state self saved !! "container_name" = Some name /\
  (forall k, k <> "container_name" -> get_state self saved !! k = saved !! k) /\
  (forall (state : gmap string string) (s : Machine W),
     load_state state s = (Return tt, s)).
Proof.
  unfold get_state. repeat split.
  - by rewrite lookup_insert_eq.
  - intros k Hk. by rewrite lookup_insert_ne.
  - intros state s. unfold load_state. by destruct (bool_decide _).
Qed.

End Rest.

(** ** Further scripted runs *)

(** X4 on a hub reached through another address. *)
Lemma public_hub_api_url_replaces_host_witness :
  _public_hub_api_url behind_proxy = Return "http://192.168.1.10:8081/hub/api"
  /\ exists proto host rest,
       hub_api_url behind_proxy = proto +:+ "://" +:+ host +:+ ":" +:+ rest /\
       "http://192.168.1.10:8081/hub/api" =
         proto +:+ "://" +:+ hub_ip_connect behind_proxy +:+ ":" +:+ rest /\
       ~ occurs "://" proto /\
       ~ occurs ":" host.
Proof.
  split; [ reflexivity | ].
  apply (public_hub_api_url_replaces_host behind_proxy). reflexivity.
Defined.

(** X6 on the scripted cluster. *)
Lemma get_env_variables_witness :
  exists env,
    (get_env alice (boot (accepting []))).1 = Return env /\
    env !! "JPY_USER" = Some "alice" /\
    env !! "JPY_HUB_API_URL" = Some "http://127.0.0.1:8081/hub/api" /\
    env !! "NOTEBOOK_DIR" = None.
Proof.
  eexists. split; [ reflexivity | ].
  edestruct (get_env_variables alice (boot (accepting [])))
    as (Huser & _ & _ & _ & Hdir & (url & Hurl & Hpublic) & _);
    [ reflexivity | ].
  split; [ exact Huser | ]. split; [ | exact Hdir ].
  simpl in Hpublic. rewrite Hurl. f_equal. exact Hpublic.
Defined.

(** X7 on a spawner whose hub URL cannot be split: [get_env] raises
    [ValueError] and nothing is submitted. *)
Lemma start_fails_before_submission_witness :
  (get_env stray_hub (boot never_healthy)).1 = Raise ValueError /\
  start stray_hub (boot never_healthy) =
    (Raise ValueError, boot never_healthy).
Proof.
  split; [ reflexivity | ].
  apply (start_fails_before_submission stray_hub (boot never_healthy)).
  reflexivity.
Defined.

(** X8 on the scripted cluster. *)
Lemma start_call_protocol_witness :
  exists req k tail,
    calls (start alice (boot transient_then_healthy)).2 =
      CreateApp (container_name alice) req
        :: idle_rounds (container_name alice) k ++ tail /\
    (k <= 5)%nat /\
    loop_tail (container_name alice) tail.
Proof.
  edestruct (start_call_protocol alice (boot transient_then_healthy))
    as (k & tail & Hcalls & Hk & Htail & _); [ reflexivity | ].
  eexists _, k, tail. split; [ exact Hcalls | ]. split; assumption.
Defined.

(** X9 on a spawner with no time to start. *)
Lemma start_without_time_to_start_witness :
  (start impatient (boot never_healthy)).1 = Return None /\
  count is_poll (calls (start impatient (boot never_healthy)).2) = 0%nat.
Proof.
  erewrite (start_without_time_to_start impatient (boot never_healthy));
    [ split; reflexivity | vm_compute; discriminate | reflexivity ].
Defined.

(** X10 on the scripted cluster. *)
Lemma start_endpoint_origin_witness :
  exists (k : nat) (task : MarathonTask) (ps : list Z),
    (k < 5)%nat /\ task_ports task = 31005 :: ps.
Proof.
  destruct (start_endpoint_origin alice (boot transient_then_healthy)
              "10.0.0.7" 31005)
    as (req & created & w0 & k & wk & app & w1 & found & w2 & task & w3 & ps
        & _ & _ & Hk & _ & _ & _ & _ & _ & _ & Hports);
    [ reflexivity | ].
  exists k, task, ps. split; assumption.
Defined.

(** X11 on a workload reported healthy without a task. *)
Lemma start_raise_origin_witness :
  (start alice (boot healthy_without_task)).1 = Raise AssertionError /\
  exists (k : nat) (app : AppStatus),
    (k < 5)%nat /\ tasks_healthy app = Some 1.
Proof.
  split; [ reflexivity | ].
  edestruct (start_raise_origin alice (boot healthy_without_task))
    as (created & w0 & k & wk & app & w1 & _ & Hk & _ & _ & Hhealthy & _);
    [ reflexivity | reflexivity | ].
  exists k, app. split; assumption.
Defined.
